(** * CT back-projection (ct_parallel02.cpp): a shallow embedding

    The program reconstructs a cubic volume of [num_voxels]^3 floats from
    X-ray projections.  Every MPI rank back-projects its own contiguous range
    of projections into a local volume; the local volumes are summed at rank 0,
    which writes the result and prints a checksum.

    Layout of the development:
    - machine integers ([int], [uint64_t]) as [Z] with the wrap-around written
      out;
    - [float] as its 32-bit pattern, with IEEE-754 binary32 arithmetic taken
      from the standard library's [SpecFloat];
    - files as byte lists in a finite map from path to content;
    - the kernel, the partitioner and the reduction, written once over an
      arithmetic interface and instantiated at binary32;
    - the theorems. *)

From Stdlib Require Import ZArith QArith Qcanon Lia Bool.
From Stdlib Require Import Floats.SpecFloat.
From Stdlib Require Strings.Byte.
From stdpp Require Import base list gmap strings pretty.

Local Open Scope Z_scope.

(** ** Machine integers *)

(** [int] is 32 bits wide, two's complement.  Signed overflow is undefined in
    C++; the model wraps, as the generated code does. *)
Definition wrap_int32 (x : Z) : Z := (x + 2 ^ 31) mod 2 ^ 32 - 2 ^ 31.

(** [uint64_t] arithmetic, and the conversion of an [int] to [uint64_t]. *)
Definition wrap_uint64 (x : Z) : Z := x mod 2 ^ 64.

(** ** Single-precision floats *)

Module Binary32.

Definition prec : Z := 24.
Definition emax : Z := 128.

(** A [float] is its object representation read as a 32-bit word:
    bit 31 the sign, bits 30..23 the biased exponent, bits 22..0 the
    fraction. *)
Definition float : Type := Z.

Definition is_float (w : float) : Prop := 0 <= w < 2 ^ 32.

Definition sign_of (w : float) : bool := Z.testbit w 31.
Definition exponent_of (w : float) : Z := Z.land (Z.shiftr w 23) 255.
Definition fraction_of (w : float) : Z := Z.land w (2 ^ 23 - 1).

Definition to_SF (w : float) : spec_float :=
  let s := sign_of w in
  let e := exponent_of w in
  let m := fraction_of w in
  if e =? 0 then
    match m with
    | Zpos p => S754_finite s p (-149)
    | _ => S754_zero s
    end
  else if e =? 255 then
    (if m =? 0 then S754_infinity s else S754_nan)
  else S754_finite s (Z.to_pos (m + 2 ^ 23)) (e - 150).

Definition sign_word (s : bool) : Z := if s then 2 ^ 31 else 0.

(** NaN payloads are not tracked: every NaN result is the default quiet
    NaN. *)
Definition quiet_nan : float := 0x7FC00000.

Definition of_SF (x : spec_float) : float :=
  match x with
  | S754_zero s => sign_word s
  | S754_infinity s => sign_word s + 0x7F800000
  | S754_nan => quiet_nan
  | S754_finite s m e =>
      if Zpos m <? 2 ^ 23 then sign_word s + Zpos m
      else sign_word s + ((e + 150) mod 256) * 2 ^ 23 + Zpos m mod 2 ^ 23
  end.

Definition zero : float := 0.
Definition add (a b : float) : float := of_SF (SFadd prec emax (to_SF a) (to_SF b)).
Definition mul (a b : float) : float := of_SF (SFmul prec emax (to_SF a) (to_SF b)).
Definition div (a b : float) : float := of_SF (SFdiv prec emax (to_SF a) (to_SF b)).

(** [std::round]: to the nearest integer, halfway cases away from zero. *)
Definition round_magnitude (m : positive) (e : Z) : Z :=
  if 0 <=? e then Zpos m * 2 ^ e
  else (Zpos m + 2 ^ (- e - 1)) / 2 ^ (- e).

(** The result of converting a NaN, an infinity or a value outside [int32_t]
    to [int32_t].  C++ leaves the conversion undefined; x86-64 ([cvttss2si])
    produces the "integer indefinite" value, which is what is modelled. *)
Definition integer_indefinite : Z := - 2 ^ 31.

(** [int32_t n = std::round(x)] *)
Definition round_to_int32 (x : float) : Z :=
  match to_SF x with
  | S754_zero _ => 0
  | S754_finite s m e =>
      let n := if s then - round_magnitude m e else round_magnitude m e in
      if (- 2 ^ 31 <=? n) && (n <? 2 ^ 31) then n else integer_indefinite
  | _ => integer_indefinite
  end.

(** A float literal given by an integer value, e.g. [5.0f]. *)
Definition of_Z (n : Z) : float := of_SF (binary_normalize prec emax n 0 false).

End Binary32.

(** [double], used only for the checksum accumulator: the value alone, an
    element of binary64. *)
Module Binary64.

Definition prec : Z := 53.
Definition emax : Z := 1024.

Definition double : Type := spec_float.

Definition zero : double := S754_zero false.
Definition add (a b : double) : double := SFadd prec emax a b.

(** Every binary32 value is a binary64 value; the conversion renormalises
    the mantissa and never rounds. *)
Definition of_float (x : Binary32.float) : double :=
  match Binary32.to_SF x with
  | S754_finite s m e => binary_round prec emax s m e
  | v => v
  end.

End Binary64.

(** ** Files *)

(** A float in a file or in memory occupies four bytes, least significant
    first (the "native" representation of the x86-64 nodes the program is
    run on). *)

Definition byte_of_Z (z : Z) : Byte.byte :=
  default Byte.x00 (Byte.of_N (Z.to_N (z mod 256))).

Definition Z_of_byte (b : Byte.byte) : Z := Z.of_N (Byte.to_N b).

Definition float_bytes (w : Binary32.float) : list Byte.byte :=
  [byte_of_Z w; byte_of_Z (w ≫ 8); byte_of_Z (w ≫ 16); byte_of_Z (w ≫ 24)].

Definition float_of_bytes (b0 b1 b2 b3 : Byte.byte) : Binary32.float :=
  Z_of_byte b0 + Z_of_byte b1 ≪ 8 + Z_of_byte b2 ≪ 16 + Z_of_byte b3 ≪ 24.

Definition encode_floats (data : list Binary32.float) : list Byte.byte :=
  data ≫= float_bytes.

Fixpoint decode_floats (bytes : list Byte.byte) : list Binary32.float :=
  match bytes with
  | b0 :: b1 :: b2 :: b3 :: rest => float_of_bytes b0 b1 b2 b3 :: decode_floats rest
  | _ => []
  end.

(** The file system: the content of every existing file, and the paths that
    cannot be opened for writing (missing directory, no permission). *)
Record file_system := FileSystem {
  contents : gmap string (list Byte.byte);
  unwritable : gset string
}.

(** What a call does: return, or throw [std::runtime_error]. *)
Inductive outcome (A : Type) :=
  | Returned (a : A)
  | Thrown (what : string).
Arguments Returned {A} a.
Arguments Thrown {A} what.

(** *** The MPI-IO calls of [read_file]

    File handles carry the default error handler, [MPI_ERRORS_RETURN]: a
    failing call returns an error code and has no other effect.  [read_file]
    never looks at the codes, so they are left out of the model. *)

Record MPI_File := {
  fh_bytes : option (list Byte.byte);  (* [None]: MPI_FILE_NULL *)
  fh_disp : Z                          (* displacement of the view, in bytes *)
}.

(** [MPI_File_open(MPI_COMM_WORLD, filename, MPI_MODE_RDONLY, ...)] *)
Definition MPI_File_open (fs : file_system) (filename : string) : MPI_File :=
  {| fh_bytes := contents fs !! filename; fh_disp := 0 |}.

(** [MPI_File_set_view(fh, disp, MPI_FLOAT, MPI_FLOAT, "native", ...)].
    [disp] arrives as a [uint64_t] and is taken as a signed [MPI_Offset];
    a negative displacement is refused and the view stays as it was. *)
Definition MPI_File_set_view (fh : MPI_File) (disp : Z) : MPI_File :=
  if 2 ^ 63 <=? disp then fh
  else {| fh_bytes := fh_bytes fh; fh_disp := disp |}.

(** [MPI_File_read_all(fh, &data[0], count, MPI_FLOAT, ...)]: the bytes
    found in the file from the displacement on, at most [4 * count] of them,
    overwrite the start of the buffer.  [count] is an [int]. *)
Definition MPI_File_read_all (fh : MPI_File) (data : list Binary32.float)
    (count : Z) : list Binary32.float :=
  match fh_bytes fh with
  | None => data
  | Some bytes =>
      if count <? 0 then data
      else
        let raw := take (Z.to_nat (4 * count)) (drop (Z.to_nat (fh_disp fh)) bytes) in
        decode_floats (raw ++ drop (length raw) (encode_floats data))
  end.

(** *** [read_file] and [write_file]

    [read_file] also takes [mpi_rank] and [mpi_size] and uses neither.  The
    read is collective; the file is not written during the reads, so every
    rank gets the same data and the ranks are modelled one at a time. *)

Definition read_file (size offset : Z) (filename : string)
    (fs : file_system) : list Binary32.float :=
  let offset_bin := wrap_uint64 (offset * 4) in
  let data := replicate (Z.to_nat size) Binary32.zero in
  let fh := MPI_File_open fs filename in
  let fh := MPI_File_set_view fh offset_bin in
  let data := MPI_File_read_all fh data (wrap_int32 size) in
  data.

(** [std::ofstream file(filename, out | binary)] truncates the file; seeking
    past the end and writing leaves the gap filled with zero bytes.  The
    position is a signed [std::streamoff]: a seek to a negative position
    fails, the stream goes bad and the write that follows does nothing. *)
Definition write_file (data : list Binary32.float) (offset : Z)
    (filename : string) (fs : file_system) : outcome file_system :=
  if decide (filename ∈ unwritable fs) then
    Thrown ("Couldn't write to file: " +:+ filename)
  else
    let pos := wrap_uint64 (offset * 4) in
    let written :=
      if 2 ^ 63 <=? pos then []
      else match data with
           | [] => []
           | _ => replicate (Z.to_nat pos) Byte.x00 ++ encode_floats data
           end in
    Returned {| contents := <[filename := written]> (contents fs);
                unwritable := unwritable fs |}.

(** ** The arithmetic of the kernel

    [F] is the type of the volume and of the input data ([float] in the
    source), [D] that of the checksum accumulator ([double]).  Every
    operation rounds once: a product followed by a sum is two roundings, not
    a fused multiply-add. *)
Class Arithmetic (F D : Type) := {
  fzero : F;
  fadd : F → F → F;
  fmul : F → F → F;
  fdiv : F → F → F;
  round_int32 : F → Z;      (* [int32_t n = std::round(x)] *)
  dzero : D;
  dadd : D → D → D;
  to_double : F → D
}.

#[export] Instance binary32_arithmetic : Arithmetic Binary32.float Binary64.double := {
  fzero := Binary32.zero;
  fadd := Binary32.add;
  fmul := Binary32.mul;
  fdiv := Binary32.div;
  round_int32 := Binary32.round_to_int32;
  dzero := Binary64.zero;
  dadd := Binary64.add;
  to_double := Binary64.of_float
}.

(** CT data that are used for all projections *)
Record GlobalData (F : Type) := {
  combined_matrix : list F;
  z_voxel_coords : list F
}.
Arguments combined_matrix {F} _.
Arguments z_voxel_coords {F} _.

(** CT data that are associated with a specific projection *)
Record ProjectionData (F : Type) := {
  projection : list F;
  transform_matrix : list F;
  volume_weight : list F
}.
Arguments projection {F} _.
Arguments transform_matrix {F} _.
Arguments volume_weight {F} _.

(** ** The reconstruction, rank by rank *)

Section Reconstruction.

Context {F D : Type} `{!Arithmetic F D}.

(** The number of projections and the detector dimensions: compile-time
    constants of the source (320, 192 and 256), kept as variables so that
    the statements cover every choice. *)
Variables num_projections detector_rows detector_columns : Z.

(** [v[k]] on a [std::vector<float>].  The index is converted to [size_t].
    An access past the end is undefined in the source; here a read yields 0
    and a write is dropped, and the theorems state the lengths they need. *)
Definition vec_get (v : list F) (k : Z) : F :=
  default fzero (v !! Z.to_nat (wrap_uint64 k)).

Definition vec_set (v : list F) (k : Z) (x : F) : list F :=
  <[Z.to_nat (wrap_uint64 k) := x]> v.

(** [uint64_t size = num_voxels * num_voxels;] and
    [uint64_t recon_volume_size = num_voxels * num_voxels * num_voxels;]:
    the products are formed in [int] and then widened. *)
Definition slice_size (num_voxels : Z) : Z :=
  wrap_uint64 (wrap_int32 (num_voxels * num_voxels)).

Definition recon_volume_size (num_voxels : Z) : Z :=
  wrap_uint64 (wrap_int32 (wrap_int32 (num_voxels * num_voxels) * num_voxels)).

(** *** Work partitioning *)

Definition num_projections_l (mpi_size : Z) : Z := num_projections ÷ mpi_size.

Definition start_id (mpi_rank mpi_size : Z) : Z :=
  wrap_int32 (mpi_rank * num_projections_l mpi_size).

Definition stop_id (mpi_rank mpi_size : Z) : Z :=
  if negb (mpi_rank =? mpi_size - 1) then
    wrap_int32 (wrap_int32 (mpi_rank + 1) * num_projections_l mpi_size)
  else num_projections.

(** [for (projection_id = start_id; projection_id < stop_id; ++projection_id)] *)
Definition assigned_projections (mpi_rank mpi_size : Z) : list Z :=
  seqZ (start_id mpi_rank mpi_size)
       (stop_id mpi_rank mpi_size - start_id mpi_rank mpi_size).

(** *** The kernel *)

(** The loop over [j]: the three rows of the transform applied to the voxel's
    coordinate vector. *)
Definition vol_det_map (size : Z) (gdata : GlobalData F)
    (pdata : ProjectionData F) (z i : Z) : F * F * F :=
  foldl (λ '(vol_det_map_0, vol_det_map_1, vol_det_map_2) j,
           let combined_val :=
             if j =? 2 then vec_get (z_voxel_coords gdata) z
             else vec_get (combined_matrix gdata) (j * size + i) in
           let transform_matrix := vec_get (transform_matrix pdata) in
           (fadd vol_det_map_0 (fmul combined_val (transform_matrix j)),
            fadd vol_det_map_1 (fmul combined_val (transform_matrix (j + 4))),
            fadd vol_det_map_2 (fmul combined_val (transform_matrix (j + 4 + 4)))))
        (fzero, fzero, fzero) (seqZ 0 4).

Definition map_col (size : Z) (gdata : GlobalData F) (pdata : ProjectionData F)
    (z i : Z) : Z :=
  let '(vol_det_map_0, _, vol_det_map_2) := vol_det_map size gdata pdata z i in
  round_int32 (fdiv vol_det_map_0 vol_det_map_2).

Definition map_row (size : Z) (gdata : GlobalData F) (pdata : ProjectionData F)
    (z i : Z) : Z :=
  let '(_, vol_det_map_1, vol_det_map_2) := vol_det_map size gdata pdata z i in
  round_int32 (fdiv vol_det_map_1 vol_det_map_2).

(** The test that masks out the rays that miss the detector. *)
Definition on_detector (col row : Z) : bool :=
  (0 <=? col) && (0 <=? row) && (col <? detector_columns) && (row <? detector_rows).

(** [map_col + map_row * detector_columns], formed in [int]. *)
Definition pixel_index (col row : Z) : Z :=
  wrap_int32 (col + wrap_int32 (row * detector_columns)).

(** The body of the two loops, for one voxel. *)
Definition backproject_voxel (size : Z) (gdata : GlobalData F)
    (pdata : ProjectionData F) (recon_volume : list F) (z i : Z) : list F :=
  let col := map_col size gdata pdata z i in
  let row := map_row size gdata pdata z i in
  if on_detector col row then
    vec_set recon_volume (z * size + i)
      (fadd (vec_get recon_volume (z * size + i))
            (fmul (vec_get (projection pdata) (pixel_index col row))
                  (vec_get (volume_weight pdata) i)))
  else recon_volume.

(** What that body does to the value [x] of voxel [(z, i)]. *)
Definition voxel_update (size : Z) (gdata : GlobalData F)
    (pdata : ProjectionData F) (z i : Z) (x : F) : F :=
  let col := map_col size gdata pdata z i in
  let row := map_row size gdata pdata z i in
  if on_detector col row then
    fadd x (fmul (vec_get (projection pdata) (pixel_index col row))
                 (vec_get (volume_weight pdata) i))
  else x.

(** The loops over [z] and [i].  The source runs the slices on OpenMP threads;
    no two slices touch the same element, and the model runs them in order. *)
Definition backproject (num_voxels : Z) (gdata : GlobalData F)
    (pdata : ProjectionData F) (recon_volume : list F) : list F :=
  let size := slice_size num_voxels in
  foldl (λ vol z,
           foldl (λ vol i, backproject_voxel size gdata pdata vol z i)
                 vol (seqZ 0 size))
        recon_volume (seqZ 0 num_voxels).

(** The voxels in the order the two loops visit them, and the index of a
    voxel in the volume. *)
Definition voxels (num_voxels : Z) : list (Z * Z) :=
  seqZ 0 num_voxels ≫= λ z, (z,.) <$> seqZ 0 (num_voxels * num_voxels).

Definition voxel_key (num_voxels : Z) (zi : Z * Z) : nat :=
  Z.to_nat (wrap_uint64 (zi.1 * (num_voxels * num_voxels) + zi.2)).

(** The loop over projections, for the projections [ids]; [load] stands for
    [load_projection_data]. *)
Definition backproject_all (num_voxels : Z) (gdata : GlobalData F)
    (load : Z → ProjectionData F) (ids : list Z) (recon_volume : list F) : list F :=
  foldl (λ vol projection_id,
           backproject num_voxels gdata (load projection_id) vol)
        recon_volume ids.

(** What that loop does to the value [x] of voxel [(z, i)]. *)
Definition voxel_after (size : Z) (gdata : GlobalData F)
    (load : Z → ProjectionData F) (z i : Z) (ids : list Z) (x : F) : F :=
  foldl (λ x projection_id, voxel_update size gdata (load projection_id) z i x)
        x ids.

(** The volume a rank holds before the reduction. *)
Definition local_volume (num_voxels : Z) (gdata : GlobalData F)
    (load : Z → ProjectionData F) (mpi_rank mpi_size : Z) : list F :=
  backproject_all num_voxels gdata load
    (assigned_projections mpi_rank mpi_size)
    (replicate (Z.to_nat (recon_volume_size num_voxels)) fzero).

(** *** Reduction *)

(** [MPI_Reduce(..., MPI_FLOAT, MPI_SUM, 0, MPI_COMM_WORLD)]: what rank 0
    receives.  MPI does not fix the order in which the contributions are
    combined; the model adds them in rank order. *)
Definition MPI_Reduce_sum (sendbufs : list (list F)) (recvbuf : list F) : list F :=
  match sendbufs with
  | [] => recvbuf
  | buf :: bufs => foldl (zip_with fadd) buf bufs
  end.

(** [recon_volume_final] at rank 0, after the reduction. *)
Definition final_volume (num_voxels : Z) (gdata : GlobalData F)
    (load : Z → ProjectionData F) (mpi_size : Z) : list F :=
  MPI_Reduce_sum
    ((λ r, local_volume num_voxels gdata load r mpi_size) <$> seqZ 0 mpi_size)
    (replicate (Z.to_nat (recon_volume_size num_voxels)) fzero).

(** [std::accumulate(recon_volume_final.begin(), recon_volume_final.end(), 0.0)]:
    the initial value is a [double], and so is the running sum. *)
Definition checksum (recon_volume_final : list F) : D :=
  foldl (λ acc x, dadd acc (to_double x)) dzero recon_volume_final.

End Reconstruction.

(** ** Loading the data and running one rank *)

Section Program.

Variables num_projections detector_rows detector_columns : Z.

(** Load global CT data *)
Definition load_global_data (num_voxels : Z) (input_dir : string)
    (fs : file_system) : GlobalData Binary32.float :=
  let voxel_dir := input_dir +:+ "/" +:+ pretty num_voxels in
  {| combined_matrix :=
       read_file (wrap_uint64 (wrap_int32 (wrap_int32 (4 * num_voxels) * num_voxels)))
                 0 (voxel_dir +:+ "/combined.bin") fs;
     z_voxel_coords :=
       read_file (wrap_uint64 num_voxels) 0 (voxel_dir +:+ "/z_voxel_coords.bin") fs |}.

(** Load projection specific CT data *)
Definition load_projection_data (num_voxels : Z) (input_dir : string)
    (fs : file_system) (projection_id : Z) : ProjectionData Binary32.float :=
  let voxel_dir := input_dir +:+ "/" +:+ pretty num_voxels in
  {| projection :=
       read_file (wrap_uint64 (wrap_int32 (detector_rows * detector_columns)))
                 (wrap_uint64 (wrap_int32 (wrap_int32 (projection_id * detector_rows)
                                           * detector_columns)))
                 (input_dir +:+ "/projections.bin") fs;
     transform_matrix :=
       read_file (3 * 4) (wrap_uint64 (wrap_int32 (wrap_int32 (projection_id * 3) * 4)))
                 (input_dir +:+ "/transform.bin") fs;
     volume_weight :=
       read_file (wrap_uint64 (wrap_int32 (num_voxels * num_voxels)))
                 (wrap_uint64 (wrap_int32 (wrap_int32 (projection_id * num_voxels)
                                           * num_voxels)))
                 (voxel_dir +:+ "/volumeweight.bin") fs |}.

(** The four durations the coordinator prints, in seconds.  They come from
    [std::chrono::steady_clock] and are inputs of the model. *)
Record clock_readings := {
  elapsed_time : Binary64.double;
  reading_time : Binary64.double;
  writing_time : Binary64.double;
  omp_time : Binary64.double
}.

(** One line on [std::cout]: the label and the number that follows it. *)
Definition report_line : Type := string * Binary64.double.

(** [reconstruction], as run by rank [mpi_rank] of [mpi_size]: the new file
    system and what the rank printed, or the exception that ended it. *)
Definition reconstruction (num_voxels : Z) (input_dir output_filename : string)
    (mpi_rank mpi_size : Z) (clock : clock_readings) (fs : file_system)
    : outcome (file_system * list report_line) :=
  let gdata := load_global_data num_voxels input_dir fs in
  let load := load_projection_data num_voxels input_dir fs in
  let recon_volume_final :=
    if mpi_rank =? 0 then
      final_volume num_projections detector_rows detector_columns
                   num_voxels gdata load mpi_size
    else replicate (Z.to_nat (recon_volume_size num_voxels)) Binary32.zero in
  if mpi_rank =? 0 then
    let written :=
      if negb (String.eqb output_filename "") then
        write_file recon_volume_final 0 output_filename fs
      else Returned fs in
    match written with
    | Thrown what => Thrown what
    | Returned fs' =>
        Returned (fs',
                  [("checksum: ", checksum recon_volume_final);
                   ("elapsed time: ", elapsed_time clock);
                   ("reading time: ", reading_time clock);
                   ("writing time: ", writing_time clock);
                   ("computation time: ", omp_time clock)])
    end
  else Returned (fs, []).

End Program.

(** The constants of the source. *)
Module Source.
Definition num_projections : Z := 320.
Definition detector_rows : Z := 192.
Definition detector_columns : Z := 256.
End Source.

(** ** Exact arithmetic

    The kernel over the rationals: sums that never round.  (Division by zero
    yields 0 here; nothing below depends on it.) *)

Definition Qc_round_to_int32 (x : Qc) : Z :=
  let num := Qnum (this x) in
  let den := Zpos (Qden (this x)) in
  let n := if 0 <=? num then (2 * num + den) / (2 * den)
           else - ((2 * - num + den) / (2 * den)) in
  if (- 2 ^ 31 <=? n) && (n <? 2 ^ 31) then n else Binary32.integer_indefinite.

#[export] Instance rational_arithmetic : Arithmetic Qc Qc := {
  fzero := 0%Qc;
  fadd := Qcplus;
  fmul := Qcmult;
  fdiv := Qcdiv;
  round_int32 := Qc_round_to_int32;
  dzero := 0%Qc;
  dadd := Qcplus;
  to_double := id
}.

(** ** The accumulators as the specification words them

    The voxel coordinate with an implicit 1 as its fourth component:
    component [j] is combined_matrix[0*size+i], combined_matrix[1*size+i],
    z_voxel_coords[z] and 1 for j = 0, 1, 2, 3, and accumulator [r] is the
    sum over j of component[j] * transform_matrix[j + 4*r]. *)

Definition claimed_component (size : Z) (gdata : GlobalData Binary32.float)
    (z i j : Z) : Binary32.float :=
  if j =? 3 then Binary32.of_Z 1
  else if j =? 2 then vec_get (z_voxel_coords gdata) z
  else vec_get (combined_matrix gdata) (j * size + i).

Definition claimed_accumulator (size : Z) (gdata : GlobalData Binary32.float)
    (pdata : ProjectionData Binary32.float) (z i r : Z) : Binary32.float :=
  foldl (λ acc j, fadd acc (fmul (claimed_component size gdata z i j)
                                 (vec_get (transform_matrix pdata) (j + 4 * r))))
        fzero (seqZ 0 4).

(** ** Sample inputs *)

(** A volume of a single voxel at the origin; [w] is the fourth entry of its
    column in [combined.bin]. *)
Definition one_voxel_gdata (w : Binary32.float) : GlobalData Binary32.float :=
  {| combined_matrix := [Binary32.zero; Binary32.zero; Binary32.zero; w];
     z_voxel_coords := [Binary32.zero] |}.

(** A transform whose rows are (0, 0, 0, col), (0, 0, 0, row), (0, 0, 0, 1). *)
Definition transform_to (col row : Z) : list Binary32.float :=
  [Binary32.zero; Binary32.zero; Binary32.zero; Binary32.of_Z col;
   Binary32.zero; Binary32.zero; Binary32.zero; Binary32.of_Z row;
   Binary32.zero; Binary32.zero; Binary32.zero; Binary32.of_Z 1].

(** A 192 x 256 image that is [first] at pixel (0, 0) and 0 elsewhere. *)
Definition image_with_first_pixel (first : Binary32.float) : list Binary32.float :=
  first :: replicate (Z.to_nat (192 * 256 - 1)) Binary32.zero.

Definition projection_to (col row : Z) (first : Binary32.float)
    : ProjectionData Binary32.float :=
  {| projection := image_with_first_pixel first;
     transform_matrix := transform_to col row;
     volume_weight := [Binary32.of_Z 1] |}.




(** The end-to-end scenario of the specification: a 2 x 2 detector, one
    projection that is 5.0 everywhere, weights 1.0, and a transform that sends
    each of the 2^3 voxels to pixel (0, 0). *)
Definition scenario_fs : file_system :=
  {| contents :=
       list_to_map
         [("in/2/combined.bin",
           encode_floats (Binary32.of_Z <$> [0; 1; 0; 1; 0; 0; 1; 1;
                                             0; 0; 0; 0; 1; 1; 1; 1]));
          ("in/2/z_voxel_coords.bin", encode_floats (Binary32.of_Z <$> [0; 1]));
          ("in/2/volumeweight.bin", encode_floats (Binary32.of_Z <$> [1; 1; 1; 1]));
          ("in/projections.bin", encode_floats (Binary32.of_Z <$> [5; 5; 5; 5]));
          ("in/transform.bin",
           encode_floats (Binary32.of_Z <$> [0; 0; 0; 0; 0; 0; 0; 0; 0; 0; 0; 1]))];
     unwritable := ∅ |}.

(** The second scenario of the specification: two projections, the first
    reaching only the slice z = 0 and the second only the slice z = 1 (the
    other slice falls ten columns off the detector), each adding 1.0. *)
Definition two_halves_fs : file_system :=
  {| contents :=
       list_to_map
         [("in/2/combined.bin",
           encode_floats (Binary32.of_Z <$> [0; 1; 0; 1; 0; 0; 1; 1;
                                             0; 0; 0; 0; 1; 1; 1; 1]));
          ("in/2/z_voxel_coords.bin", encode_floats (Binary32.of_Z <$> [0; 1]));
          ("in/2/volumeweight.bin",
           encode_floats (Binary32.of_Z <$> [1; 1; 1; 1; 1; 1; 1; 1]));
          ("in/projections.bin",
           encode_floats (Binary32.of_Z <$> [1; 1; 1; 1; 1; 1; 1; 1]));
          ("in/transform.bin",
           encode_floats (Binary32.of_Z <$> [0; 0; 10; 0; 0; 0; 0; 0; 0; 0; 0; 1;
                                             0; 0; -10; 10; 0; 0; 0; 0; 0; 0; 0; 1]))];
     unwritable := ∅ |}.

Definition scenario_clock : clock_readings :=
  {| elapsed_time := Binary64.zero; reading_time := Binary64.zero;
     writing_time := Binary64.zero; omp_time := Binary64.zero |}.

(** Closed goals are settled by running the definitions. *)
Ltac evaluate :=
  vm_compute; repeat split; first [reflexivity | discriminate | intro; discriminate].

(** * Properties *)

(** ** The float model on known values *)

Example binary32_literals :
  Binary32.of_Z 1 = 0x3F800000 ∧ Binary32.of_Z 5 = 0x40A00000
  ∧ Binary32.of_Z (-3) = 0xC0400000 ∧ Binary32.of_Z (2 ^ 24) = 0x4B800000.
Proof. evaluate. Qed.

Example binary32_operations :
  Binary32.div (Binary32.of_Z 1) (Binary32.of_Z 3) = 0x3EAAAAAB
  ∧ Binary32.mul (Binary32.of_Z 3) (Binary32.div (Binary32.of_Z 1) (Binary32.of_Z 4))
    = 0x3F400000
  ∧ Binary32.add (Binary32.of_Z (2 ^ 24)) (Binary32.of_Z 1) = Binary32.of_Z (2 ^ 24)
  ∧ Binary32.div (Binary32.of_Z 1) Binary32.zero = 0x7F800000
  ∧ Binary32.div Binary32.zero Binary32.zero = Binary32.quiet_nan.
Proof. evaluate. Qed.

Example binary32_rounding :
  Binary32.round_to_int32 (Binary32.div (Binary32.of_Z 5) (Binary32.of_Z 2)) = 3
  ∧ Binary32.round_to_int32 (Binary32.div (Binary32.of_Z (-5)) (Binary32.of_Z 2)) = -3
  ∧ Binary32.round_to_int32 (Binary32.div (Binary32.of_Z 7) (Binary32.of_Z 3)) = 2
  ∧ Binary32.round_to_int32 (Binary32.div (Binary32.of_Z 1) (Binary32.of_Z 3)) = 0
  ∧ Binary32.round_to_int32 (Binary32.div (Binary32.of_Z 1) Binary32.zero)
    = Binary32.integer_indefinite.
Proof. evaluate. Qed.

(** ** Machine integers that do not wrap *)

Lemma wrap_int32_id (x : Z) : - 2 ^ 31 <= x < 2 ^ 31 → wrap_int32 x = x.
Proof.
  intros Hx. unfold wrap_int32.
  rewrite Z.mod_small by lia. lia.
Qed.

Lemma wrap_uint64_id (x : Z) : 0 <= x < 2 ^ 64 → wrap_uint64 x = x.
Proof. intros Hx. unfold wrap_uint64. by rewrite Z.mod_small. Qed.

Lemma cube_bounds (V : Z) :
  0 <= V → V * V * V < 2 ^ 31 → 0 <= V * V < 2 ^ 31 ∧ 0 <= V * V * V.
Proof. intros HV Hc. nia. Qed.

Lemma slice_size_small (V : Z) :
  0 <= V → V * V * V < 2 ^ 31 → slice_size V = V * V.
Proof.
  intros HV Hc. destruct (cube_bounds V HV Hc) as [Hs _].
  unfold slice_size. rewrite wrap_int32_id, wrap_uint64_id; lia.
Qed.

Lemma recon_volume_size_small (V : Z) :
  0 <= V → V * V * V < 2 ^ 31 → recon_volume_size V = V * V * V.
Proof.
  intros HV Hc. destruct (cube_bounds V HV Hc) as [Hs Hn].
  unfold recon_volume_size.
  rewrite (wrap_int32_id (V * V)) by lia.
  rewrite wrap_int32_id, wrap_uint64_id; lia.
Qed.

(** ** Work partitioning *)

Section Partition.

Variable P G : Z.
Hypothesis HP : 0 <= P < 2 ^ 31.
Hypothesis HS : 0 < G.

Lemma num_projections_l_div : num_projections_l P G = P / G.
Proof. unfold num_projections_l. apply Z.quot_div_nonneg; lia. Qed.

Lemma quotient_bounds : 0 <= P / G ∧ G * (P / G) <= P.
Proof.
  split.
  - apply Z.div_pos; lia.
  - apply Z.mul_div_le. lia.
Qed.

Lemma start_id_eq (r : Z) : 0 <= r < G → start_id P r G = r * (P / G).
Proof.
  intros Hr. unfold start_id. rewrite num_projections_l_div.
  pose proof quotient_bounds as [Hq HSq].
  apply wrap_int32_id. nia.
Qed.

Lemma stop_id_inner (r : Z) : 0 <= r < G - 1 → stop_id P r G = (r + 1) * (P / G).
Proof.
  intros Hr. unfold stop_id. rewrite num_projections_l_div.
  pose proof quotient_bounds as [Hq HSq].
  destruct (Z.eqb_spec r (G - 1)) as [->|_]; [lia|]. simpl.
  destruct (Z_lt_le_dec (r + 1) (2 ^ 31)) as [Hlt|Hge].
  - rewrite (wrap_int32_id (r + 1)) by lia. apply wrap_int32_id. nia.
  - (* more ranks than fit an [int]: then [(P / G) = 0] *)
    assert (P / G = 0) as -> by nia.
    rewrite !Z.mul_0_r. reflexivity.
Qed.

Lemma stop_id_last : stop_id P (G - 1) G = P.
Proof. unfold stop_id. by rewrite Z.eqb_refl. Qed.

Lemma assigned_inner (r : Z) :
  0 <= r < G - 1 → assigned_projections P r G = seqZ (r * (P / G)) (P / G).
Proof.
  intros Hr. unfold assigned_projections.
  rewrite start_id_eq, stop_id_inner by lia. f_equal. lia.
Qed.

Lemma assigned_last :
  assigned_projections P (G - 1) G = seqZ ((G - 1) * (P / G)) (P - (G - 1) * (P / G)).
Proof.
  unfold assigned_projections.
  by rewrite start_id_eq, stop_id_last by lia.
Qed.

Lemma blocks_concat (n : nat) :
  concat ((λ r, seqZ (r * (P / G)) (P / G)) <$> seqZ 0 (Z.of_nat n))
  = seqZ 0 (Z.of_nat n * (P / G)).
Proof.
  pose proof quotient_bounds as [Hq _].
  induction n as [|n IH].
  - reflexivity.
  - rewrite seqZ_S, fmap_app, concat_app, IH. simpl.
    rewrite app_nil_r, Z.add_0_l.
    replace (Z.of_nat (S n) * (P / G)) with (Z.of_nat n * (P / G) + (P / G)) by lia.
    rewrite seqZ_app by lia. by rewrite Z.add_0_l.
Qed.

Lemma assigned_concat :
  concat ((λ r, assigned_projections P r G) <$> seqZ 0 G) = seqZ 0 P.
Proof.
  pose proof quotient_bounds as [Hq HSq].
  replace G with (Z.of_nat (S (Z.to_nat (G - 1)))) at 1 by lia.
  rewrite seqZ_S, fmap_app, concat_app. simpl.
  rewrite app_nil_r, Z.add_0_l, Z2Nat.id by lia.
  rewrite assigned_last.
  replace ((λ r, assigned_projections P r G) <$> seqZ 0 (G - 1))
    with ((λ r, seqZ (r * (P / G)) (P / G)) <$> seqZ 0 (G - 1)).
  - replace (G - 1) with (Z.of_nat (Z.to_nat (G - 1))) at 1 by lia.
    rewrite blocks_concat, Z2Nat.id by lia.
    replace (seqZ 0 P) with (seqZ 0 ((G - 1) * (P / G) + (P - (G - 1) * (P / G))))
      by (f_equal; lia).
    rewrite seqZ_app by nia. by rewrite Z.add_0_l.
  - apply list_fmap_ext. intros i r Hr.
    apply lookup_seqZ in Hr as [-> Hi].
    symmetry. apply assigned_inner. lia.
Qed.

End Partition.

(** ** Folding in-place updates over distinct indices *)

Section FoldAlter.

Context {A B : Type}.
Variable key : B → nat.
Variable upd : B → A → A.

Lemma foldl_alter_length (xs : list B) (l : list A) :
  length (foldl (λ l x, alter (upd x) (key x) l) l xs) = length l.
Proof.
  revert l. induction xs as [|x xs IH]; intros l; simpl; [done|].
  rewrite IH. apply length_alter.
Qed.

Lemma foldl_alter_untouched (xs : list B) (l : list A) (k : nat) :
  k ∉ key <$> xs → foldl (λ l x, alter (upd x) (key x) l) l xs !! k = l !! k.
Proof.
  revert l. induction xs as [|x xs IH]; intros l Hk; simpl; [done|].
  rewrite fmap_cons, not_elem_of_cons in Hk. destruct Hk as [Hne Hk].
  rewrite IH by done. by rewrite list_lookup_alter_ne.
Qed.

Lemma foldl_alter_touched (xs : list B) (l : list A) (x : B) :
  NoDup (key <$> xs) → x ∈ xs →
  foldl (λ l x, alter (upd x) (key x) l) l xs !! key x = upd x <$> l !! key x.
Proof.
  revert l. induction xs as [|y xs IH]; intros l Hnd Hx; simpl.
  - by apply elem_of_nil in Hx.
  - rewrite fmap_cons, NoDup_cons in Hnd. destruct Hnd as [Hy Hnd].
    destruct (decide (key x = key y)) as [Heq|Hne].
    + rewrite Heq in *. rewrite foldl_alter_untouched by done.
      rewrite list_lookup_alter_eq.
      apply elem_of_cons in Hx as [->|Hx]; [done|].
      exfalso. apply Hy. rewrite <- Heq. apply list_elem_of_fmap. eauto.
    + apply elem_of_cons in Hx as [->|Hx]; [done|].
      rewrite IH by done. by rewrite list_lookup_alter_ne.
Qed.

End FoldAlter.

Lemma foldl_bind {A B C} (f : A → C → A) (g : B → list C) (a : A) (l : list B) :
  foldl f a (l ≫= g) = foldl (λ a x, foldl f a (g x)) a l.
Proof.
  revert a. induction l as [|x l IH]; intros a; [done|].
  rewrite bind_cons, foldl_app. apply IH.
Qed.

Lemma foldl_agree {A B} (f g : A → B → A) (a : A) (l : list B) :
  (∀ a x, x ∈ l → f a x = g a x) → foldl f a l = foldl g a l.
Proof.
  revert a. induction l as [|x l IH]; intros a Hfg; simpl; [done|].
  rewrite Hfg by (apply elem_of_cons; by left).
  apply IH. intros b y Hy. apply Hfg. apply elem_of_cons. by right.
Qed.

Lemma foldl_fixed {A B} (f : A → B → A) (a : A) (l : list B) :
  (∀ x, x ∈ l → f a x = a) → foldl f a l = a.
Proof.
  induction l as [|x l IH]; intros Hf; simpl; [done|].
  rewrite Hf by (apply elem_of_cons; by left).
  apply IH. intros y Hy. apply Hf. apply elem_of_cons. by right.
Qed.

Lemma insert_default_alter {A} (f : A → A) (d : A) (l : list A) (k : nat) :
  <[k := f (default d (l !! k))]> l = alter f k l.
Proof.
  revert k. induction l as [|a l IH]; intros [|k]; try done.
  change (a :: <[k := f (default d (l !! k))]> l = a :: alter f k l).
  f_equal. apply IH.
Qed.

(** ** One projection, voxel by voxel *)

Section KernelFacts.

Context {F D : Type} `{!Arithmetic F D}.
Variables detector_rows detector_columns : Z.
Variable V : Z.
Hypothesis HV : 0 <= V.
Hypothesis Hcube : V * V * V < 2 ^ 31.
Variable gdata : GlobalData F.

Lemma elem_of_voxels (z i : Z) :
  (z, i) ∈ voxels V ↔ 0 <= z < V ∧ 0 <= i < V * V.
Proof.
  unfold voxels. rewrite list_elem_of_bind. split.
  - intros (z' & Hzi & Hz). apply list_elem_of_fmap in Hzi as (i' & [= -> ->] & Hi).
    apply elem_of_seqZ in Hz, Hi. lia.
  - intros [Hz Hi]. exists z. split.
    + apply list_elem_of_fmap. exists i. split; [done|]. apply elem_of_seqZ. lia.
    + apply elem_of_seqZ. lia.
Qed.

Lemma voxel_index_range (z i : Z) :
  0 <= z < V → 0 <= i < V * V → 0 <= z * (V * V) + i < V * V * V.
Proof. intros Hz Hi. nia. Qed.

Lemma key_small (z i : Z) :
  0 <= z < V → 0 <= i < V * V → voxel_key V (z, i) = Z.to_nat (z * (V * V) + i).
Proof.
  intros Hz Hi. unfold voxel_key. simpl.
  pose proof (voxel_index_range z i Hz Hi).
  rewrite wrap_uint64_id; lia.
Qed.

Lemma voxel_index_inj (z i z' i' : Z) :
  0 <= i < V * V → 0 <= i' < V * V →
  z * (V * V) + i = z' * (V * V) + i' → z = z' ∧ i = i'.
Proof.
  intros Hi Hi' Heq.
  assert (z = z') as <-; [|lia].
  destruct (Z.lt_trichotomy z z') as [Hlt|[Heq'|Hgt]]; [exfalso|done|exfalso].
  - assert ((z + 1) * (V * V) <= z' * (V * V)) by (apply Z.mul_le_mono_nonneg_r; lia).
    lia.
  - assert ((z' + 1) * (V * V) <= z * (V * V)) by (apply Z.mul_le_mono_nonneg_r; lia).
    lia.
Qed.

Lemma NoDup_voxel_keys : NoDup (voxel_key V <$> voxels V).
Proof.
  apply NoDup_fmap_2_strong.
  - intros [z i] [z' i'] Hx Hy Hk.
    apply elem_of_voxels in Hx as [Hz Hi].
    apply elem_of_voxels in Hy as [Hz' Hi'].
    rewrite !key_small in Hk by done.
    pose proof (voxel_index_range z i Hz Hi).
    pose proof (voxel_index_range z' i' Hz' Hi').
    apply Z2Nat.inj in Hk; [|lia..].
    by apply voxel_index_inj in Hk as [-> ->].
  - unfold voxels. apply NoDup_bind.
    + intros z1 z2 [z i] _ _ H1 H2.
      apply list_elem_of_fmap in H1 as (? & [= -> ->] & _).
      by apply list_elem_of_fmap in H2 as (? & [= -> ->] & _).
    + intros z _. apply NoDup_fmap_2; [|apply NoDup_seqZ].
      by intros ?? [= ->].
    + apply NoDup_seqZ.
Qed.

Variable pdata : ProjectionData F.

Lemma backproject_voxel_alter (vol : list F) (z i : Z) :
  backproject_voxel detector_rows detector_columns (V * V) gdata pdata vol z i
  = alter (voxel_update detector_rows detector_columns (V * V) gdata pdata z i)
          (voxel_key V (z, i)) vol.
Proof.
  unfold backproject_voxel, voxel_update.
  destruct (on_detector _ _ _ _).
  - unfold vec_set, vec_get.
    apply (insert_default_alter (λ x, fadd x _)).
  - symmetry. by apply list_alter_id.
Qed.

Lemma backproject_as_fold (vol : list F) :
  backproject detector_rows detector_columns V gdata pdata vol
  = foldl (λ l x, alter (voxel_update detector_rows detector_columns (V * V)
                           gdata pdata x.1 x.2) (voxel_key V x) l) vol (voxels V).
Proof.
  unfold backproject, voxels.
  rewrite slice_size_small by done.
  rewrite foldl_bind.
  apply foldl_agree. intros l z _.
  rewrite foldl_fmap.
  apply foldl_agree. intros l' i _.
  apply backproject_voxel_alter.
Qed.

Lemma backproject_length (vol : list F) :
  length (backproject detector_rows detector_columns V gdata pdata vol) = length vol.
Proof. rewrite backproject_as_fold. apply foldl_alter_length. Qed.

Lemma backproject_lookup (vol : list F) (z i : Z) :
  0 <= z < V → 0 <= i < V * V →
  backproject detector_rows detector_columns V gdata pdata vol
    !! Z.to_nat (z * (V * V) + i)
  = voxel_update detector_rows detector_columns (V * V) gdata pdata z i
      <$> vol !! Z.to_nat (z * (V * V) + i).
Proof.
  intros Hz Hi. rewrite backproject_as_fold, <- key_small by done.
  apply (foldl_alter_touched (voxel_key V)
           (λ x, voxel_update detector_rows detector_columns (V * V)
                   gdata pdata x.1 x.2) (voxels V) vol (z, i)).
  - apply NoDup_voxel_keys.
  - by apply elem_of_voxels.
Qed.

End KernelFacts.

(** ** The detector test and the pixel index *)

Lemma on_detector_true (detector_rows detector_columns col row : Z) :
  on_detector detector_rows detector_columns col row = true
  ↔ 0 <= col < detector_columns ∧ 0 <= row < detector_rows.
Proof. unfold on_detector. rewrite !andb_true_iff. lia. Qed.

Lemma on_detector_false (detector_rows detector_columns col row : Z) :
  on_detector detector_rows detector_columns col row = false
  ↔ ¬ (0 <= col < detector_columns ∧ 0 <= row < detector_rows).
Proof. rewrite <- on_detector_true. by destruct (on_detector _ _ _ _). Qed.

Lemma pixel_index_on_detector (detector_rows detector_columns col row : Z) :
  detector_rows * detector_columns < 2 ^ 31 →
  on_detector detector_rows detector_columns col row = true →
  pixel_index detector_columns col row = col + row * detector_columns
  ∧ 0 <= col + row * detector_columns < detector_rows * detector_columns.
Proof.
  intros Hdet [Hc Hr]%on_detector_true.
  assert (0 <= row * detector_columns <= (detector_rows - 1) * detector_columns) by nia.
  unfold pixel_index.
  rewrite (wrap_int32_id (row * detector_columns)) by lia.
  rewrite wrap_int32_id by lia. lia.
Qed.

Section KernelClaims.

Context {F D : Type} `{!Arithmetic F D}.
Variables detector_rows detector_columns : Z.

Lemma vec_get_lookup (v : list F) (k : Z) (x : F) :
  0 <= k < 2 ^ 64 → v !! Z.to_nat k = Some x → vec_get v k = x.
Proof.
  intros Hk Hx. unfold vec_get. by rewrite wrap_uint64_id, Hx.
Qed.

(** C1 (as amended): the three accumulators of the [j] loop are the rows of
    the transform applied to the vector (combined_matrix[0*size+i],
    combined_matrix[1*size+i], z_voxel_coords[z], combined_matrix[3*size+i]),
    each sum taken from 0 in the order j = 0, 1, 2, 3.  The fourth component
    is read from the table; nothing in the code fixes it to 1. *)
Theorem vol_det_map_matrix_vector (size : Z) (gdata : GlobalData F)
    (pdata : ProjectionData F) (z i : Z) :
  let c0 := vec_get (combined_matrix gdata) (0 * size + i) in
  let c1 := vec_get (combined_matrix gdata) (1 * size + i) in
  let c2 := vec_get (z_voxel_coords gdata) z in
  let c3 := vec_get (combined_matrix gdata) (3 * size + i) in
  let t := vec_get (transform_matrix pdata) in
  let row r :=
    fadd (fadd (fadd (fadd fzero (fmul c0 (t (0 + 4 * r))))
                     (fmul c1 (t (1 + 4 * r))))
               (fmul c2 (t (2 + 4 * r))))
         (fmul c3 (t (3 + 4 * r))) in
  vol_det_map size gdata pdata z i = (row 0, row 1, row 2).
Proof. reflexivity. Qed.

Lemma backproject_voxel_value (V : Z) (gdata : GlobalData F)
    (pdata : ProjectionData F) (recon_volume : list F) (z i : Z) :
  0 <= V → V * V * V < 2 ^ 31 →
  detector_rows * detector_columns < 2 ^ 31 →
  length recon_volume = Z.to_nat (V * V * V) →
  0 <= z < V → 0 <= i < V * V →
  let col := map_col (V * V) gdata pdata z i in
  let row := map_row (V * V) gdata pdata z i in
  backproject detector_rows detector_columns V gdata pdata recon_volume
    !! Z.to_nat (z * (V * V) + i)
  = Some (if on_detector detector_rows detector_columns col row then
            fadd (vec_get recon_volume (z * (V * V) + i))
                 (fmul (vec_get (projection pdata) (col + row * detector_columns))
                       (vec_get (volume_weight pdata) i))
          else vec_get recon_volume (z * (V * V) + i)).
Proof.
  intros HV Hcube Hdet Hlen Hz Hi col row.
  pose proof (voxel_index_range V HV z i Hz Hi) as Hk.
  destruct (lookup_lt_is_Some_2 recon_volume (Z.to_nat (z * (V * V) + i)))
    as [old Hold]; [lia|].
  rewrite (vec_get_lookup _ _ old) by (done || lia).
  rewrite backproject_lookup, Hold by done. simpl.
  unfold voxel_update. fold col row.
  destruct (on_detector _ _ col row) eqn:Hon; [|done].
  by destruct (pixel_index_on_detector _ _ _ _ Hdet Hon) as [-> _].
Qed.


(** C6 (as amended): if the transform sends every voxel to the last detector
    pixel (detector_columns-1, detector_rows-1), every voxel [(z, i)] of every
    slice has projection[last pixel] * volume_weight[i] added to it (which is
    non-zero only where that product is); if it sends every voxel to
    (detector_columns, 0), one past the last column, the volume is left as it
    was, so a zero volume stays zero. *)
Theorem backproject_detector_edge (V : Z) (gdata : GlobalData F)
    (pdata : ProjectionData F) (recon_volume : list F) :
  0 <= V → V * V * V < 2 ^ 31 →
  0 < detector_rows → 0 < detector_columns →
  detector_rows * detector_columns < 2 ^ 31 →
  length recon_volume = Z.to_nat (V * V * V) →
  let after := backproject detector_rows detector_columns V gdata pdata recon_volume in
  ((∀ z i, 0 <= z < V → 0 <= i < V * V →
      map_col (V * V) gdata pdata z i = detector_columns - 1
      ∧ map_row (V * V) gdata pdata z i = detector_rows - 1) →
   ∀ z i, 0 <= z < V → 0 <= i < V * V →
     after !! Z.to_nat (z * (V * V) + i)
     = Some (fadd (vec_get recon_volume (z * (V * V) + i))
                  (fmul (vec_get (projection pdata)
                           ((detector_columns - 1)
                            + (detector_rows - 1) * detector_columns))
                        (vec_get (volume_weight pdata) i))))
  ∧ ((∀ z i, 0 <= z < V → 0 <= i < V * V →
        map_col (V * V) gdata pdata z i = detector_columns
        ∧ map_row (V * V) gdata pdata z i = 0) →
     after = recon_volume).
Proof.
  intros HV Hcube Hrows Hcols Hdet Hlen after. split.
  - intros Hmap z i Hz Hi.
    destruct (Hmap z i Hz Hi) as [Hc Hr].
    subst after.
    rewrite (backproject_voxel_value V gdata pdata recon_volume z i) by done.
    rewrite Hc, Hr.
    replace (on_detector _ _ _ _) with true; [done|].
    symmetry. apply on_detector_true. lia.
  - intros Hmap. subst after. unfold backproject.
    rewrite slice_size_small by done.
    apply foldl_fixed. intros z Hz%elem_of_seqZ.
    apply foldl_fixed. intros i Hi%elem_of_seqZ.
    unfold backproject_voxel.
    destruct (Hmap z i) as [-> ->]; [lia..|].
    replace (on_detector _ _ _ _) with false; [done|].
    symmetry. apply on_detector_false. lia.
Qed.

End KernelClaims.

(** ** All projections of a rank, and the reduction *)

Section ReductionFacts.

Context {F D : Type} `{!Arithmetic F D}.
Variables num_projections detector_rows detector_columns : Z.
Variable V : Z.
Hypothesis HV : 0 <= V.
Hypothesis Hcube : V * V * V < 2 ^ 31.
Variable gdata : GlobalData F.
Variable load : Z → ProjectionData F.

Lemma backproject_all_length (ids : list Z) (vol : list F) :
  length (backproject_all detector_rows detector_columns V gdata load ids vol)
  = length vol.
Proof.
  revert vol. induction ids as [|id ids IH]; intros vol; simpl; [done|].
  unfold backproject_all in *. simpl. rewrite IH. by apply backproject_length.
Qed.

Lemma backproject_all_lookup (ids : list Z) (vol : list F) (z i : Z) :
  0 <= z < V → 0 <= i < V * V →
  backproject_all detector_rows detector_columns V gdata load ids vol
    !! Z.to_nat (z * (V * V) + i)
  = voxel_after detector_rows detector_columns (V * V) gdata load z i ids
      <$> vol !! Z.to_nat (z * (V * V) + i).
Proof.
  intros Hz Hi. revert vol.
  induction ids as [|id ids IH]; intros vol; simpl.
  - by destruct (vol !! _).
  - unfold backproject_all in *. simpl. rewrite IH, backproject_lookup by done.
    by destruct (vol !! _).
Qed.

Lemma local_volume_length (r G : Z) :
  length (local_volume num_projections detector_rows detector_columns V gdata load r G)
  = Z.to_nat (V * V * V).
Proof.
  unfold local_volume.
  rewrite backproject_all_length, length_replicate.
  by rewrite recon_volume_size_small.
Qed.

Lemma local_volume_lookup (r G z i : Z) :
  0 <= z < V → 0 <= i < V * V →
  local_volume num_projections detector_rows detector_columns V gdata load r G
    !! Z.to_nat (z * (V * V) + i)
  = Some (voxel_after detector_rows detector_columns (V * V) gdata load z i
            (assigned_projections num_projections r G) fzero).
Proof.
  intros Hz Hi. unfold local_volume.
  rewrite (backproject_all_lookup _ _ z i) by done.
  rewrite lookup_replicate_2; [done|].
  rewrite recon_volume_size_small by done.
  pose proof (voxel_index_range V HV z i Hz Hi). lia.
Qed.


(** *** The element-wise sum *)

Lemma reduce_length (b : list F) (ls : list (list F)) :
  Forall (λ l, length l = length b) ls →
  length (foldl (zip_with fadd) b ls) = length b.
Proof.
  revert b. induction ls as [|l ls IH]; intros b Hls; simpl; [done|].
  apply Forall_cons in Hls as [Hl Hls].
  rewrite IH.
  - rewrite length_zip_with. lia.
  - rewrite length_zip_with. eapply Forall_impl; [done|]. simpl. lia.
Qed.


(** *** Sums that may be regrouped *)

Section Exact.

Hypothesis fadd_assoc : ∀ a b c : F, fadd a (fadd b c) = fadd (fadd a b) c.
Hypothesis fadd_0_l : ∀ a : F, fadd fzero a = a.
Hypothesis fadd_0_r : ∀ a : F, fadd a fzero = a.




End Exact.

End ReductionFacts.


Section ReductionClaims.

Context {F D : Type} `{!Arithmetic F D}.
Variables num_projections detector_rows detector_columns : Z.

Lemma final_volume_unfold (V : Z) (gdata : GlobalData F)
    (load : Z → ProjectionData F) (G : Z) :
  0 < G →
  final_volume num_projections detector_rows detector_columns V gdata load G
  = foldl (zip_with fadd)
      (local_volume num_projections detector_rows detector_columns V gdata load 0 G)
      ((λ r, local_volume num_projections detector_rows detector_columns V gdata load r G)
         <$> seqZ 1 (G - 1)).
Proof.
  intros HG. unfold final_volume.
  rewrite (seqZ_cons 0 G) by lia. reflexivity.
Qed.

Lemma final_volume_length (V : Z) (gdata : GlobalData F)
    (load : Z → ProjectionData F) (G : Z) :
  0 <= V → V * V * V < 2 ^ 31 →
  length (final_volume num_projections detector_rows detector_columns V gdata load G)
  = Z.to_nat (V * V * V).
Proof.
  intros HV Hcube.
  destruct (Z_lt_le_dec 0 G) as [HG|HG].
  - rewrite final_volume_unfold by done.
    rewrite reduce_length; [by apply local_volume_length|].
    apply Forall_fmap, Forall_forall. intros r _. simpl.
    by rewrite !local_volume_length.
  - unfold final_volume. rewrite seqZ_nil by lia. simpl.
    by rewrite length_replicate, recon_volume_size_small.
Qed.


Lemma assigned_single (P : Z) :
  0 <= P < 2 ^ 31 → assigned_projections P 0 1 = seqZ 0 P.
Proof.
  intros HP. pose proof (assigned_concat P 1 HP) as Hc.
  change (seqZ 0 1) with [0] in Hc. simpl in Hc.
  rewrite app_nil_r in Hc. apply Hc. lia.
Qed.

End ReductionClaims.

Section RegroupingClaim.

Context {F D : Type} `{!Arithmetic F D}.
Variables num_projections detector_rows detector_columns : Z.


End RegroupingClaim.

(** ** Bytes and floats *)

Lemma Z_of_byte_of_Z (z : Z) : Z_of_byte (byte_of_Z z) = z mod 256.
Proof.
  unfold Z_of_byte, byte_of_Z.
  pose proof (Z.mod_pos_bound z 256 ltac:(lia)) as Hm.
  destruct (Byte.of_N (Z.to_N (z mod 256))) as [b|] eqn:Hb; simpl.
  - apply Byte.to_of_N in Hb. rewrite Hb. lia.
  - apply Byte.of_N_None_iff in Hb. lia.
Qed.

Lemma float_of_float_bytes (w : Binary32.float) :
  Binary32.is_float w →
  match float_bytes w with
  | [b0; b1; b2; b3] => float_of_bytes b0 b1 b2 b3 = w
  | _ => False
  end.
Proof.
  intros Hw. unfold Binary32.is_float in Hw. simpl.
  unfold float_of_bytes. rewrite !Z_of_byte_of_Z.
  rewrite !Z.shiftr_div_pow2, !Z.shiftl_mul_pow2 by lia.
  change (2 ^ 8) with 256. change (2 ^ 16) with 65536.
  change (2 ^ 24) with 16777216. change (2 ^ 32) with 4294967296 in Hw.
  Z.div_mod_to_equations. lia.
Qed.

Lemma length_encode_floats (data : list Binary32.float) :
  length (encode_floats data) = (4 * length data)%nat.
Proof.
  unfold encode_floats. induction data as [|w data IH]; [done|].
  rewrite bind_cons, length_app, IH. simpl. lia.
Qed.

Lemma decode_encode_floats (data : list Binary32.float) :
  Forall Binary32.is_float data → decode_floats (encode_floats data) = data.
Proof.
  unfold encode_floats. induction 1 as [|w data Hw _ IH]; [done|].
  rewrite bind_cons.
  pose proof (float_of_float_bytes w Hw) as Hb.
  destruct (float_bytes w) as [|b0 [|b1 [|b2 [|b3 [|??]]]]]; try done.
  simpl. by rewrite Hb, IH.
Qed.

(** ** Reading back what was written *)



(** ** What the reader returns, and the accesses of the kernel *)

Lemma length_decode_floats (n : nat) (bytes : list Byte.byte) :
  length bytes = (4 * n)%nat → length (decode_floats bytes) = n.
Proof.
  revert bytes. induction n as [|n IH]; intros bytes Hlen.
  - by destruct bytes.
  - destruct bytes as [|b0 [|b1 [|b2 [|b3 rest]]]]; simpl in Hlen; try lia.
    simpl. f_equal. apply IH. lia.
Qed.

Lemma wrap_int32_le (x : Z) : 0 <= x → wrap_int32 x <= x.
Proof.
  intros Hx. unfold wrap_int32.
  pose proof (Z.mod_le (x + 2 ^ 31) (2 ^ 32)). lia.
Qed.

Lemma read_file_length (size offset : Z) (filename : string) (fs : file_system) :
  0 <= size → length (read_file size offset filename fs) = Z.to_nat size.
Proof.
  intros Hsize. unfold read_file, MPI_File_read_all.
  destruct (fh_bytes _) as [bytes|]; [|by rewrite length_replicate].
  destruct (Z.ltb_spec (wrap_int32 size) 0) as [_|Hcount];
    [by rewrite length_replicate|].
  pose proof (wrap_int32_le size Hsize) as Hle.
  apply length_decode_floats.
  rewrite length_app, length_drop, length_encode_floats, length_replicate.
  rewrite length_take. lia.
Qed.

(** While the products of [num_voxels] fit an [int], the two vector accesses
    of a voxel that passes the detector test are inside their vectors. *)
Lemma kernel_accesses_in_bounds (detector_rows detector_columns V : Z)
    (input_dir : string) (fs : file_system) (projection_id z i col row : Z)
    (recon_volume : list Binary32.float) :
  0 <= V → V * V * V < 2 ^ 31 →
  0 <= detector_rows * detector_columns < 2 ^ 31 →
  length recon_volume = Z.to_nat (recon_volume_size V) →
  0 <= z < V → 0 <= i < slice_size V →
  on_detector detector_rows detector_columns col row = true →
  (Z.to_nat (wrap_uint64 (pixel_index detector_columns col row))
   < length (projection (load_projection_data detector_rows detector_columns
                           V input_dir fs projection_id)))%nat
  ∧ (Z.to_nat (wrap_uint64 (z * slice_size V + i)) < length recon_volume)%nat.
Proof.
  intros HV Hcube Hdet Hlen Hz Hi Hon.
  rewrite slice_size_small in * by done.
  rewrite recon_volume_size_small in Hlen by done.
  destruct (pixel_index_on_detector _ _ _ _ (proj2 Hdet) Hon) as [-> Hpix].
  pose proof (voxel_index_range V HV z i Hz Hi) as Hk.
  simpl. rewrite read_file_length.
  - rewrite wrap_int32_id, !wrap_uint64_id by lia. lia.
  - rewrite wrap_int32_id, wrap_uint64_id by lia. lia.
Qed.

(** ** The coordinator *)

Section ProgramClaims.

Variables num_projections detector_rows detector_columns : Z.

Lemma write_file_at_0 (data : list Binary32.float) (filename : string)
    (fs : file_system) :
  filename ∉ unwritable fs →
  write_file data 0 filename fs
  = Returned {| contents := <[filename := encode_floats data]> (contents fs);
                unwritable := unwritable fs |}.
Proof.
  intros Hw. unfold write_file.
  destruct (decide (filename ∈ unwritable fs)) as [|_]; [done|].
  by destruct data.
Qed.

(** C5: the number printed after "checksum: " is the sum, taken in order from
    0.0 in double precision, of the elements of the final volume; the final
    volume has [num_voxels]^3 elements, and when an output path is given the
    file holds exactly these elements. *)
Theorem checksum_sums_final_volume (num_voxels : Z)
    (input_dir output_filename : string) (mpi_size : Z)
    (clock : clock_readings) (fs : file_system) :
  0 <= num_voxels → num_voxels * num_voxels * num_voxels < 2 ^ 31 →
  output_filename = "" ∨ output_filename ∉ unwritable fs →
  let recon_volume_final :=
    final_volume num_projections detector_rows detector_columns num_voxels
      (load_global_data num_voxels input_dir fs)
      (load_projection_data detector_rows detector_columns num_voxels input_dir fs)
      mpi_size in
  ∃ fs' report,
    reconstruction num_projections detector_rows detector_columns num_voxels
      input_dir output_filename 0 mpi_size clock fs = Returned (fs', report)
    ∧ length recon_volume_final = Z.to_nat (num_voxels * num_voxels * num_voxels)
    ∧ report !! 0%nat
      = Some ("checksum: ",
              foldl (λ acc x, Binary64.add acc (Binary64.of_float x))
                    Binary64.zero recon_volume_final)
    ∧ (output_filename ≠ "" →
       contents fs' !! output_filename = Some (encode_floats recon_volume_final)).
Proof.
  intros HV Hcube Hout final.
  unfold reconstruction. simpl. fold final.
  destruct (String.eqb_spec output_filename "") as [->|Hne]; simpl.
  - eexists _, _. split_and!; [done| |done|done].
    by apply final_volume_length.
  - destruct Hout as [?|Hw]; [done|].
    rewrite write_file_at_0 by done.
    eexists _, _. split_and!; [done| |done|].
    + by apply final_volume_length.
    + intros _. simpl. apply lookup_insert_eq.
Qed.

(** C9: a rank other than 0 leaves the file system as it is and prints
    nothing.  Rank 0 prints the checksum and the four timings; it calls
    [write_file] on the final volume when an output path was given, and
    leaves the file system alone when none was. *)
Theorem only_coordinator_writes_and_reports (num_voxels : Z)
    (input_dir output_filename : string) (mpi_rank mpi_size : Z)
    (clock : clock_readings) (fs : file_system) :
  let run :=
    reconstruction num_projections detector_rows detector_columns num_voxels
      input_dir output_filename mpi_rank mpi_size clock fs in
  let recon_volume_final :=
    final_volume num_projections detector_rows detector_columns num_voxels
      (load_global_data num_voxels input_dir fs)
      (load_projection_data detector_rows detector_columns num_voxels input_dir fs)
      mpi_size in
  let report :=
    [("checksum: ", checksum recon_volume_final);
     ("elapsed time: ", elapsed_time clock);
     ("reading time: ", reading_time clock);
     ("writing time: ", writing_time clock);
     ("computation time: ", omp_time clock)] in
  (mpi_rank ≠ 0 → run = Returned (fs, []))
  ∧ (mpi_rank = 0 → output_filename = "" → run = Returned (fs, report))
  ∧ (mpi_rank = 0 → output_filename ≠ "" →
     run = match write_file recon_volume_final 0 output_filename fs with
           | Returned fs' => Returned (fs', report)
           | Thrown what => Thrown what
           end).
Proof.
  intros run final report. subst run. unfold reconstruction.
  split_and!.
  - intros Hr. by destruct (Z.eqb_spec mpi_rank 0).
  - intros -> ->. reflexivity.
  - intros -> Hne. simpl.
    destruct (String.eqb_spec output_filename "") as [|_]; [done|].
    simpl. by destruct (write_file _ _ _ _).
Qed.

End ProgramClaims.

(** ** The partition *)

(** C3: with q = P / mpi_size, every rank r but the last is given
    [r*q, (r+1)*q) and the last [(mpi_size-1)*q, P); the ranges of ranks
    0 .. mpi_size-1, one after the other, are exactly 0, 1, ..., P-1; the last
    range has P - (mpi_size-1)*q elements. *)
Theorem partition_tiles (P mpi_size : Z) :
  0 <= P < 2 ^ 31 → 0 < mpi_size →
  (∀ r, 0 <= r < mpi_size - 1 →
     start_id P r mpi_size = r * (P / mpi_size)
     ∧ stop_id P r mpi_size = (r + 1) * (P / mpi_size))
  ∧ (start_id P (mpi_size - 1) mpi_size = (mpi_size - 1) * (P / mpi_size)
     ∧ stop_id P (mpi_size - 1) mpi_size = P)
  ∧ (∀ r, assigned_projections P r mpi_size
          = seqZ (start_id P r mpi_size)
                 (stop_id P r mpi_size - start_id P r mpi_size))
  ∧ concat ((λ r, assigned_projections P r mpi_size) <$> seqZ 0 mpi_size)
    = seqZ 0 P
  ∧ Z.of_nat (length (assigned_projections P (mpi_size - 1) mpi_size))
    = P - (mpi_size - 1) * (P / mpi_size).
Proof.
  intros HP Hsize.
  pose proof (quotient_bounds P mpi_size HP Hsize) as [Hq Hsizeq].
  split_and!.
  - intros r Hr. split.
    + apply start_id_eq; lia.
    + by apply stop_id_inner.
  - apply start_id_eq; lia.
  - by apply stop_id_last.
  - done.
  - by apply assigned_concat.
  - rewrite assigned_last, length_seqZ by done. nia.
Qed.

(** ** The program on sample inputs *)

(** The end-to-end scenario of the specification: every voxel ends at 5.0 and
    the checksum is 40.0. *)
Example scenario_all_voxels_5 :
  reconstruction 1 2 2 2 "in" "" 0 1 scenario_clock scenario_fs
  = Returned (scenario_fs,
              [("checksum: ", Binary64.of_float (Binary32.of_Z 40));
               ("elapsed time: ", Binary64.zero);
               ("reading time: ", Binary64.zero);
               ("writing time: ", Binary64.zero);
               ("computation time: ", Binary64.zero)])
  ∧ final_volume 1 2 2 2 (load_global_data 2 "in" scenario_fs)
      (load_projection_data 2 2 2 "in" scenario_fs) 1
    = replicate 8 (Binary32.of_Z 5).
Proof. split; evaluate. Qed.

(** The second scenario: one rank handling both projections and two ranks
    handling one each produce the same volume, 1.0 everywhere. *)
Example scenario_two_halves :
  local_volume 2 2 2 2 (load_global_data 2 "in" two_halves_fs)
    (load_projection_data 2 2 2 "in" two_halves_fs) 0 2
  = (Binary32.of_Z <$> [1; 1; 1; 1; 0; 0; 0; 0])
  ∧ local_volume 2 2 2 2 (load_global_data 2 "in" two_halves_fs)
      (load_projection_data 2 2 2 "in" two_halves_fs) 1 2
    = (Binary32.of_Z <$> [0; 0; 0; 0; 1; 1; 1; 1])
  ∧ final_volume 2 2 2 2 (load_global_data 2 "in" two_halves_fs)
      (load_projection_data 2 2 2 "in" two_halves_fs) 2
    = replicate 8 (Binary32.of_Z 1)
  ∧ final_volume 2 2 2 2 (load_global_data 2 "in" two_halves_fs)
      (load_projection_data 2 2 2 "in" two_halves_fs) 1
    = replicate 8 (Binary32.of_Z 1).
Proof. split_and!; evaluate. Qed.

(** C1, the claim as worded: with 2.0 in the fourth row of [combined.bin] and
    transform rows (0, 0, 0, 1), the accumulators are 2.0 each, where an
    implicit 1 would give 1.0 each. *)
Lemma fourth_component_is_read_from_the_table :
  vol_det_map 1 (one_voxel_gdata (Binary32.of_Z 2))
    (projection_to 1 1 Binary32.zero) 0 0
  = (Binary32.of_Z 2, Binary32.of_Z 2, Binary32.of_Z 2)
  ∧ (claimed_accumulator 1 (one_voxel_gdata (Binary32.of_Z 2))
       (projection_to 1 1 Binary32.zero) 0 0 0,
     claimed_accumulator 1 (one_voxel_gdata (Binary32.of_Z 2))
       (projection_to 1 1 Binary32.zero) 0 0 1,
     claimed_accumulator 1 (one_voxel_gdata (Binary32.of_Z 2))
       (projection_to 1 1 Binary32.zero) 0 0 2)
    = (Binary32.of_Z 1, Binary32.of_Z 1, Binary32.of_Z 1)
  ∧ vol_det_map 1 (one_voxel_gdata (Binary32.of_Z 2))
      (projection_to 1 1 Binary32.zero) 0 0
    ≠ (claimed_accumulator 1 (one_voxel_gdata (Binary32.of_Z 2))
         (projection_to 1 1 Binary32.zero) 0 0 0,
       claimed_accumulator 1 (one_voxel_gdata (Binary32.of_Z 2))
         (projection_to 1 1 Binary32.zero) 0 0 1,
       claimed_accumulator 1 (one_voxel_gdata (Binary32.of_Z 2))
         (projection_to 1 1 Binary32.zero) 0 0 2).
Proof. split_and!; evaluate. Qed.

(** C6, the claim as worded: the transform sends the voxel to the last pixel
    (255, 191), the image is 0 everywhere, and the voxel stays 0. *)
Lemma blank_image_contributes_zero :
  map_col 1 (one_voxel_gdata (Binary32.of_Z 1))
    (projection_to 255 191 Binary32.zero) 0 0 = Source.detector_columns - 1
  ∧ map_row 1 (one_voxel_gdata (Binary32.of_Z 1))
      (projection_to 255 191 Binary32.zero) 0 0 = Source.detector_rows - 1
  ∧ backproject Source.detector_rows Source.detector_columns 1
      (one_voxel_gdata (Binary32.of_Z 1)) (projection_to 255 191 Binary32.zero)
      [Binary32.zero]
    = [Binary32.zero].
Proof. split_and!; evaluate. Qed.


(** C8, at a file that does not exist: [read_file] returns, with three zeros,
    where [write_file] on a path it cannot open throws. *)
Lemma read_file_of_missing_file :
  read_file 3 0 "in/transform.bin" {| contents := ∅; unwritable := ∅ |}
  = [Binary32.zero; Binary32.zero; Binary32.zero]
  ∧ write_file [Binary32.zero] 0 "out.bin"
      {| contents := ∅; unwritable := {["out.bin"]} |}
    = Thrown "Couldn't write to file: out.bin".
Proof. split; evaluate. Qed.

(** C10, at [num_voxels = 2048]: the product 2048^3 = 2^33 wraps to 0 in
    [int], so the volume is created empty, while a slice has 2^22 voxels and
    the store for voxel (0, 0), which passes the detector test at pixel
    (0, 0), goes to index 0. *)
Lemma volume_size_wraps_at_2048 :
  recon_volume_size 2048 = 0
  ∧ length (replicate (Z.to_nat (recon_volume_size 2048)) Binary32.zero) = 0%nat
  ∧ slice_size 2048 = 2 ^ 22
  ∧ on_detector Source.detector_rows Source.detector_columns 0 0 = true
  ∧ Z.to_nat (wrap_uint64 (0 * slice_size 2048 + 0)) = 0%nat.
Proof. split_and!; evaluate. Qed.

(** ** The theorems at concrete inputs *)


Lemma backproject_detector_edge_witness :
  (0 <= 1 ∧ 1 * 1 * 1 < 2 ^ 31
   ∧ 0 < Source.detector_rows ∧ 0 < Source.detector_columns
   ∧ Source.detector_rows * Source.detector_columns < 2 ^ 31
   ∧ length [Binary32.zero] = Z.to_nat (1 * 1 * 1))
  ∧ backproject Source.detector_rows Source.detector_columns 1
      (one_voxel_gdata (Binary32.of_Z 1))
      (projection_to 256 0 (Binary32.of_Z 5)) [Binary32.zero]
    = [Binary32.zero].
Proof.
  split; [evaluate|].
  destruct (backproject_detector_edge
              Source.detector_rows Source.detector_columns 1
              (one_voxel_gdata (Binary32.of_Z 1))
              (projection_to 256 0 (Binary32.of_Z 5)) [Binary32.zero])
    as [_ Hout]; [evaluate..|].
  apply Hout. clear Hout. intros z i Hz Hi.
  assert (z = 0) as -> by lia. assert (i = 0) as -> by lia.
  evaluate.
Defined.

Lemma partition_tiles_witness :
  (0 <= 320 < 2 ^ 31 ∧ 0 < 4)
  ∧ assigned_projections 320 0 4 = seqZ 0 80
  ∧ assigned_projections 320 3 4 = seqZ 240 80
  ∧ concat ((λ r, assigned_projections 320 r 4) <$> seqZ 0 4) = seqZ 0 320.
Proof.
  split; [lia|].
  destruct (partition_tiles 320 4) as (_ & _ & _ & Htile & _); [lia..|].
  split_and!; [evaluate..|exact Htile].
Defined.


Lemma checksum_sums_final_volume_witness :
  (0 <= 2 ∧ 2 * 2 * 2 < 2 ^ 31
   ∧ ("out.bin" = "" ∨ "out.bin" ∉ unwritable scenario_fs))
  ∧ ∃ fs' report,
      reconstruction 1 2 2 2 "in" "out.bin" 0 1 scenario_clock scenario_fs
      = Returned (fs', report)
      ∧ report !! 0%nat = Some ("checksum: ", Binary64.of_float (Binary32.of_Z 40))
      ∧ contents fs' !! "out.bin"
        = Some (encode_floats (replicate 8 (Binary32.of_Z 5))).
Proof.
  assert ("out.bin" = "" ∨ "out.bin" ∉ unwritable scenario_fs) as Hout.
  { right. apply not_elem_of_empty. }
  split; [split_and!; first [lia | done]|].
  destruct (checksum_sums_final_volume 1 2 2 2 "in" "out.bin" 1
              scenario_clock scenario_fs)
    as (fs' & report & Hrun & _ & Hsum & Hfile); [lia|lia|done|].
  exists fs', report. split_and!; [done| |].
  - rewrite Hsum. evaluate.
  - rewrite Hfile by done. evaluate.
Defined.


(** * Further properties of the code *)

(** ** More on the reader and the writer *)

Lemma encode_floats_app (a b : list Binary32.float) :
  encode_floats (a ++ b) = encode_floats a ++ encode_floats b.
Proof. unfold encode_floats. apply bind_app. Qed.

Lemma drop_encode_floats (k : nat) (data : list Binary32.float) :
  drop (4 * k) (encode_floats data) = encode_floats (drop k data).
Proof.
  revert data. induction k as [|k IH]; intros data; [done|].
  destruct data as [|w data]; [done|].
  replace (4 * S k)%nat with (4 + 4 * k)%nat by lia.
  unfold encode_floats in *. rewrite bind_cons. simpl. apply IH.
Qed.

Lemma take_encode_floats (k : nat) (data : list Binary32.float) :
  take (4 * k) (encode_floats data) = encode_floats (take k data).
Proof.
  revert data. induction k as [|k IH]; intros data; [done|].
  destruct data as [|w data]; [done|].
  replace (4 * S k)%nat with (4 + 4 * k)%nat by lia.
  unfold encode_floats in *. rewrite !bind_cons. simpl. by rewrite IH.
Qed.

Lemma encode_floats_zeros (k : nat) :
  encode_floats (replicate k Binary32.zero) = replicate (4 * k) Byte.x00.
Proof.
  induction k as [|k IH]; [done|].
  replace (4 * S k)%nat with (4 + 4 * k)%nat by lia.
  unfold encode_floats in *. simpl replicate. rewrite bind_cons, IH. reflexivity.
Qed.

Lemma is_float_zero : Binary32.is_float Binary32.zero.
Proof. by vm_compute. Qed.

Lemma read_all_padded (bytes : list Byte.byte) (disp size : nat)
    (avail : list Binary32.float) :
  Forall Binary32.is_float avail →
  Z.of_nat size < 2 ^ 31 →
  take (4 * size) (drop disp bytes) = encode_floats avail →
  MPI_File_read_all {| fh_bytes := Some bytes; fh_disp := Z.of_nat disp |}
    (replicate size Binary32.zero) (Z.of_nat size)
  = avail ++ replicate (size - length avail) Binary32.zero.
Proof.
  intros Havail Hsize Hraw. unfold MPI_File_read_all. simpl.
  destruct (Z.ltb_spec (Z.of_nat size) 0) as [?|_]; [lia|].
  replace (Z.to_nat (4 * Z.of_nat size)) with (4 * size)%nat by lia.
  rewrite Nat2Z.id, Hraw, length_encode_floats, drop_encode_floats.
  rewrite drop_replicate, <- encode_floats_app.
  apply decode_encode_floats, Forall_app. split; [done|].
  apply Forall_replicate, is_float_zero.
Qed.

Lemma read_file_padded (all : list Binary32.float) (size offset : Z)
    (filename : string) (fs : file_system) :
  contents fs !! filename = Some (encode_floats all) →
  Forall Binary32.is_float all →
  0 <= offset → offset * 4 < 2 ^ 63 → 0 <= size < 2 ^ 31 →
  read_file size offset filename fs
  = take (Z.to_nat size)
         (drop (Z.to_nat offset) all ++ replicate (Z.to_nat size) Binary32.zero).
Proof.
  intros Hfile Hall Hoff Hpos Hsize.
  unfold read_file, MPI_File_open, MPI_File_set_view. simpl. rewrite Hfile.
  rewrite wrap_uint64_id by lia.
  destruct (Z.leb_spec (2 ^ 63) (offset * 4)) as [?|_]; [lia|].
  rewrite wrap_int32_id by lia.
  replace (offset * 4) with (Z.of_nat (4 * Z.to_nat offset)) by lia.
  replace size with (Z.of_nat (Z.to_nat size)) at 2 by lia.
  rewrite (read_all_padded _ _ _ (take (Z.to_nat size) (drop (Z.to_nat offset) all))).
  - rewrite take_app, take_replicate, length_take. f_equal. f_equal. lia.
  - by apply Forall_take, Forall_drop.
  - lia.
  - by rewrite drop_encode_floats, take_encode_floats.
Qed.

(** X1: when the file holds the floats [all], [read_file size offset] returns
    the [size] floats that start at element [offset]; where the file ends
    before that, the rest of the result is the 0 the vector was created with:
    a short read is not reported. *)
Theorem read_file_slice_padded (all : list Binary32.float) (size offset : Z)
    (filename : string) (fs : file_system) :
  contents fs !! filename = Some (encode_floats all) →
  Forall Binary32.is_float all →
  0 <= offset → offset * 4 < 2 ^ 63 → 0 <= size < 2 ^ 31 →
  read_file size offset filename fs
  = take (Z.to_nat size)
         (drop (Z.to_nat offset) all ++ replicate (Z.to_nat size) Binary32.zero).
Proof. apply read_file_padded. Qed.

Lemma read_file_missing (size offset : Z) (filename : string)
    (fs : file_system) :
  contents fs !! filename = None →
  read_file size offset filename fs = replicate (Z.to_nat size) Binary32.zero.
Proof.
  intros Hfile. unfold read_file, MPI_File_set_view, MPI_File_open.
  destruct (2 ^ 63 <=? _); unfold MPI_File_read_all; simpl; by rewrite Hfile.
Qed.



(** X4: a [write_file] that returns has changed no file but [filename], and
    has not changed which paths can be opened for writing. *)
Theorem write_file_leaves_other_files (data : list Binary32.float) (offset : Z)
    (filename : string) (fs fs' : file_system) :
  write_file data offset filename fs = Returned fs' →
  unwritable fs' = unwritable fs
  ∧ ∀ other, other ≠ filename → contents fs' !! other = contents fs !! other.
Proof.
  unfold write_file. destruct (decide _) as [|_]; [done|].
  intros [= <-]. split; [done|]. intros other Hne. simpl.
  by rewrite lookup_insert_ne.
Qed.

(** X5: [write_file] opens the file without [std::ios::app] or [std::ios::in],
    so the file is truncated: what an earlier [write_file] left in the same
    file has no effect on what a later one leaves. *)
Theorem write_file_discards_earlier_write (data1 data2 : list Binary32.float)
    (offset1 offset2 : Z) (filename : string) (fs fs1 : file_system) :
  write_file data1 offset1 filename fs = Returned fs1 →
  write_file data2 offset2 filename fs1 = write_file data2 offset2 filename fs.
Proof.
  unfold write_file. destruct (decide _) as [|Hw]; [done|].
  intros [= <-]. simpl.
  destruct (decide _) as [|_]; [done|]. by rewrite insert_insert_eq.
Qed.

(** X6: after [write_file data offset], reading the file from its start
    gives [offset] zeros, the hole that [seekp] leaves, and then [data]. *)
Theorem write_file_then_read_from_start (data : list Binary32.float) (offset : Z)
    (filename : string) (fs fs' : file_system) :
  Forall Binary32.is_float data →
  0 <= offset → offset + Z.of_nat (length data) < 2 ^ 31 →
  write_file data offset filename fs = Returned fs' →
  read_file (offset + Z.of_nat (length data)) 0 filename fs'
  = replicate (Z.to_nat offset) Binary32.zero ++ data.
Proof.
  intros Hdata Hoff Hlen Hwrite.
  unfold write_file in Hwrite.
  destruct (decide _) as [|_]; [done|]. injection Hwrite as <-.
  rewrite wrap_uint64_id by lia.
  destruct (Z.leb_spec (2 ^ 63) (offset * 4)) as [?|_]; [lia|].
  set (all := match data with
              | [] => []
              | _ => replicate (Z.to_nat offset) Binary32.zero ++ data
              end).
  rewrite (read_file_padded all).
  - subst all. destruct data as [|w data]; simpl length.
    + rewrite Z.add_0_r, app_nil_r. simpl. by rewrite take_replicate, Nat.min_id.
    + rewrite drop_0. rewrite take_app_length'; [done|].
      rewrite length_app, length_replicate. simpl. lia.
  - simpl. rewrite lookup_insert_eq. f_equal. subst all.
    destruct data as [|w data]; [done|].
    rewrite encode_floats_app, encode_floats_zeros. do 2 f_equal. lia.
  - subst all. destruct data; [done|].
    apply Forall_app. split; [apply Forall_replicate, is_float_zero|done].
  - lia.
  - lia.
  - lia.
Qed.

(** ** The loaders *)

Section LoaderFacts.

Variables detector_rows detector_columns : Z.

(** X7: [load_global_data] returns 4 * V * V combined coordinates and V
    z coordinates, whatever the two files hold. *)
Theorem load_global_data_shape (num_voxels : Z) (input_dir : string)
    (fs : file_system) :
  0 <= num_voxels → 4 * num_voxels * num_voxels < 2 ^ 31 →
  length (combined_matrix (load_global_data num_voxels input_dir fs))
  = Z.to_nat (4 * num_voxels * num_voxels)
  ∧ length (z_voxel_coords (load_global_data num_voxels input_dir fs))
    = Z.to_nat num_voxels.
Proof.
  intros HV H4. assert (0 <= 4 * num_voxels * num_voxels) by nia.
  assert (num_voxels < 2 ^ 31) by nia.
  unfold load_global_data. simpl. rewrite !read_file_length.
  - rewrite (wrap_int32_id (4 * num_voxels)) by nia.
    by rewrite wrap_int32_id, !wrap_uint64_id by lia.
  - unfold wrap_uint64. apply Z.mod_pos_bound. lia.
  - unfold wrap_uint64. apply Z.mod_pos_bound. lia.
Qed.

(** X8: [load_projection_data] returns an image of rows * columns floats,
    a transform of 12 floats and V * V weights, for every projection id and
    whatever the three files hold. *)
Theorem load_projection_data_shape (num_voxels : Z) (input_dir : string)
    (fs : file_system) (projection_id : Z) :
  0 <= detector_rows * detector_columns < 2 ^ 31 →
  0 <= num_voxels → num_voxels * num_voxels < 2 ^ 31 →
  let pdata := load_projection_data detector_rows detector_columns num_voxels
                 input_dir fs projection_id in
  length (projection pdata) = Z.to_nat (detector_rows * detector_columns)
  ∧ length (transform_matrix pdata) = 12%nat
  ∧ length (volume_weight pdata) = Z.to_nat (num_voxels * num_voxels).
Proof.
  intros Hdet HV Hs pdata. assert (0 <= num_voxels * num_voxels) by nia.
  subst pdata. unfold load_projection_data. simpl. rewrite !read_file_length.
  - by rewrite !wrap_int32_id, !wrap_uint64_id by lia.
  - unfold wrap_uint64. apply Z.mod_pos_bound. lia.
  - lia.
  - unfold wrap_uint64. apply Z.mod_pos_bound. lia.
Qed.

(** X9: projection [projection_id] is read from block [projection_id] of each
    of the three files, the blocks being rows * columns floats of
    projections.bin, 12 floats of transform.bin and V * V floats of
    volumeweight.bin; where a file ends inside the block the rest is 0. *)
Theorem load_projection_data_regions (num_voxels : Z) (input_dir : string)
    (fs : file_system) (projection_id : Z)
    (images transforms weights : list Binary32.float) :
  0 < detector_rows → 0 < detector_columns → 0 <= num_voxels →
  0 <= projection_id →
  (projection_id + 1) * detector_rows * detector_columns < 2 ^ 31 →
  (projection_id + 1) * 12 < 2 ^ 31 →
  (projection_id + 1) * num_voxels * num_voxels < 2 ^ 31 →
  Forall Binary32.is_float images → Forall Binary32.is_float transforms →
  Forall Binary32.is_float weights →
  contents fs !! (input_dir +:+ "/projections.bin") = Some (encode_floats images) →
  contents fs !! (input_dir +:+ "/transform.bin") = Some (encode_floats transforms) →
  contents fs !! ((input_dir +:+ "/" +:+ pretty num_voxels) +:+ "/volumeweight.bin")
  = Some (encode_floats weights) →
  let pdata := load_projection_data detector_rows detector_columns num_voxels
                 input_dir fs projection_id in
  let block (n : Z) (all : list Binary32.float) :=
    take (Z.to_nat n)
         (drop (Z.to_nat (projection_id * n)) all
          ++ replicate (Z.to_nat n) Binary32.zero) in
  projection pdata = block (detector_rows * detector_columns) images
  ∧ transform_matrix pdata = block 12 transforms
  ∧ volume_weight pdata = block (num_voxels * num_voxels) weights.
Proof.
  intros Hrows Hcols HV Hid Himg Htr Hw Fimg Ftr Fw Cimg Ctr Cw pdata block.
  assert (0 <= projection_id * detector_rows) as Hir by nia.
  assert (projection_id * detector_rows
          <= projection_id * detector_rows * detector_columns) by nia.
  assert (0 <= detector_rows * detector_columns) by nia.
  assert (projection_id * detector_rows * detector_columns
          + detector_rows * detector_columns
          = (projection_id + 1) * detector_rows * detector_columns) by ring.
  assert (0 <= num_voxels * num_voxels) as Hvv by nia.
  assert (0 <= projection_id * num_voxels) as Hiv by nia.
  assert (0 <= projection_id * num_voxels * num_voxels) by nia.
  assert (projection_id * num_voxels * num_voxels + num_voxels * num_voxels
          = (projection_id + 1) * num_voxels * num_voxels) by ring.
  assert (projection_id * num_voxels < 2 ^ 31).
  { destruct (Z.eq_dec num_voxels 0) as [->|]; [lia|].
    assert (projection_id * num_voxels
            <= projection_id * num_voxels * num_voxels) by nia. lia. }
  subst pdata block. unfold load_projection_data.
  cbn [projection transform_matrix volume_weight].
  rewrite (wrap_int32_id (projection_id * detector_rows)) by lia.
  rewrite (wrap_int32_id (projection_id * 3)) by lia.
  rewrite (wrap_int32_id (projection_id * num_voxels)) by lia.
  rewrite !wrap_int32_id, !wrap_uint64_id by lia.
  rewrite (read_file_padded images), (read_file_padded transforms),
    (read_file_padded weights) by (done || lia).
  replace (projection_id * (detector_rows * detector_columns))
    with (projection_id * detector_rows * detector_columns) by ring.
  replace (projection_id * (num_voxels * num_voxels))
    with (projection_id * num_voxels * num_voxels) by ring.
  replace (projection_id * 12) with (projection_id * 3 * 4) by ring.
  done.
Qed.

End LoaderFacts.

(** X10: when combined.bin and z_voxel_coords.bin hold exactly 4 * V * V
    and V floats, [load_global_data] returns these two sequences. *)
Theorem load_global_data_content (num_voxels : Z) (input_dir : string)
    (fs : file_system) (combined z_coords : list Binary32.float) :
  0 <= num_voxels → 4 * num_voxels * num_voxels < 2 ^ 31 →
  Forall Binary32.is_float combined → Forall Binary32.is_float z_coords →
  contents fs !! ((input_dir +:+ "/" +:+ pretty num_voxels) +:+ "/combined.bin")
  = Some (encode_floats combined) →
  contents fs !! ((input_dir +:+ "/" +:+ pretty num_voxels) +:+ "/z_voxel_coords.bin")
  = Some (encode_floats z_coords) →
  Z.of_nat (length combined) = 4 * num_voxels * num_voxels →
  Z.of_nat (length z_coords) = num_voxels →
  load_global_data num_voxels input_dir fs
  = {| combined_matrix := combined; z_voxel_coords := z_coords |}.
Proof.
  intros HV H4 Fc Fz Cc Cz Lc Lz.
  assert (num_voxels < 2 ^ 31) by nia.
  unfold load_global_data.
  rewrite (wrap_int32_id (4 * num_voxels)) by nia.
  rewrite wrap_int32_id, !wrap_uint64_id by lia.
  rewrite (read_file_padded combined), (read_file_padded z_coords) by (done || lia).
  change (Z.to_nat 0) with 0%nat. rewrite !drop_0.
  f_equal; apply take_app_length'; lia.
Qed.

(** ** The order of the voxels *)

Lemma foldl_alter_permutation {A B} (key : B → nat) (upd : B → A → A)
    (xs ys : list B) (l : list A) :
  xs ≡ₚ ys → NoDup (key <$> ys) →
  foldl (λ l x, alter (upd x) (key x) l) l xs
  = foldl (λ l x, alter (upd x) (key x) l) l ys.
Proof.
  intros Hperm Hnd.
  assert (NoDup (key <$> xs)) as Hnd' by (by rewrite Hperm).
  apply list_eq. intros k.
  destruct (decide (k ∈ key <$> ys)) as [Hin|Hout].
  - apply list_elem_of_fmap in Hin as (x & -> & Hx).
    rewrite !(foldl_alter_touched key upd); try done. by rewrite Hperm.
  - rewrite !(foldl_alter_untouched key upd); try done. by rewrite Hperm.
Qed.

Section OrderClaims.

Context {F D : Type} `{!Arithmetic F D}.
Variables num_projections detector_rows detector_columns : Z.

(** X11: the voxels of one projection may be visited in any order, as the
    threads of the [omp parallel for] do: every permutation of the voxel
    loop leaves the volume that the two nested loops leave. *)
Theorem backproject_any_voxel_order (V : Z) (gdata : GlobalData F)
    (pdata : ProjectionData F) (recon_volume : list F) (order : list (Z * Z)) :
  0 <= V → V * V * V < 2 ^ 31 →
  order ≡ₚ voxels V →
  foldl (λ vol zi, backproject_voxel detector_rows detector_columns
                     (slice_size V) gdata pdata vol zi.1 zi.2)
        recon_volume order
  = backproject detector_rows detector_columns V gdata pdata recon_volume.
Proof.
  intros HV Hcube Hperm.
  rewrite backproject_as_fold, slice_size_small by done.
  rewrite <- (foldl_alter_permutation (voxel_key V) _ order (voxels V))
    by (done || by apply NoDup_voxel_keys).
  apply foldl_agree. intros vol [z i] _. simpl.
  by apply backproject_voxel_alter.
Qed.

(** X12: a voxel that every projection of a rank maps off the detector is
    still 0 in the volume of that rank. *)
Theorem unmapped_voxel_stays_zero (V : Z) (gdata : GlobalData F)
    (load : Z → ProjectionData F) (mpi_rank mpi_size z i : Z) :
  0 <= V → V * V * V < 2 ^ 31 →
  0 <= z < V → 0 <= i < V * V →
  (∀ projection_id,
     projection_id ∈ assigned_projections num_projections mpi_rank mpi_size →
     on_detector detector_rows detector_columns
       (map_col (V * V) gdata (load projection_id) z i)
       (map_row (V * V) gdata (load projection_id) z i) = false) →
  local_volume num_projections detector_rows detector_columns V gdata load
    mpi_rank mpi_size !! Z.to_nat (z * (V * V) + i)
  = Some fzero.
Proof.
  intros HV Hcube Hz Hi Hoff.
  rewrite local_volume_lookup by done. f_equal.
  unfold voxel_after. apply foldl_fixed. intros id Hid.
  unfold voxel_update. by rewrite Hoff.
Qed.

End OrderClaims.

(** ** More on the partition *)

(** X13: with more processes than projections the quotient is 0, so every
    rank but the last runs no projection and the last rank runs all of
    them. *)
Theorem more_ranks_than_projections (P mpi_size : Z) :
  0 <= P < 2 ^ 31 → P < mpi_size →
  (∀ r, 0 <= r < mpi_size - 1 → assigned_projections P r mpi_size = [])
  ∧ assigned_projections P (mpi_size - 1) mpi_size = seqZ 0 P.
Proof.
  intros HP Hsize.
  assert (P / mpi_size = 0) as Hq by (apply Z.div_small; lia).
  split.
  - intros r Hr. rewrite assigned_inner by lia. rewrite Hq. by apply seqZ_nil.
  - rewrite assigned_last by lia. rewrite Hq. f_equal; lia.
Qed.

(** X14: the loop of a rank only visits projection ids between 0 and
    [num_projections - 1], so [load_projection_data] is never asked for a
    projection that does not exist. *)
Theorem assigned_projections_are_valid_ids (P mpi_size mpi_rank projection_id : Z) :
  0 <= P < 2 ^ 31 → 0 < mpi_size → 0 <= mpi_rank < mpi_size →
  projection_id ∈ assigned_projections P mpi_rank mpi_size →
  0 <= projection_id < P.
Proof.
  intros HP Hsize Hrank Hid.
  pose proof (quotient_bounds P mpi_size HP Hsize) as [Hq Hsq].
  destruct (Z.eq_dec mpi_rank (mpi_size - 1)) as [->|Hne].
  - rewrite assigned_last in Hid by done. apply elem_of_seqZ in Hid. nia.
  - rewrite assigned_inner in Hid by lia. apply elem_of_seqZ in Hid. nia.
Qed.

(** ** Zero images, missing inputs and the output file *)

Lemma foldl_preserves {A B} (P : A → Prop) (f : A → B → A) (l : list B) (a : A) :
  P a → (∀ a x, P a → P (f a x)) → P (foldl f a l).
Proof.
  intros Ha Hf. revert a Ha.
  induction l as [|x l IH]; intros a Ha; simpl; [done|]. by apply IH, Hf.
Qed.

Section ZeroData.

Context {F D : Type} `{!Arithmetic F D}.
Variables num_projections detector_rows detector_columns : Z.
Hypothesis fmul_0_0 : fmul fzero fzero = fzero.
Hypothesis fadd_0_0 : fadd fzero fzero = fzero.

Lemma vec_get_zeros (n : nat) (k : Z) : vec_get (replicate n fzero) k = fzero.
Proof.
  unfold vec_get.
  destruct (replicate n fzero !! _) as [x|] eqn:Hx; [|done].
  by apply lookup_replicate in Hx as [-> _].
Qed.

Lemma backproject_zero_image (V : Z) (gdata : GlobalData F)
    (pdata : ProjectionData F) (n a b : nat) :
  projection pdata = replicate a fzero →
  volume_weight pdata = replicate b fzero →
  backproject detector_rows detector_columns V gdata pdata (replicate n fzero)
  = replicate n fzero.
Proof.
  intros Hp Hw. unfold backproject.
  apply foldl_fixed. intros z _. apply foldl_fixed. intros i _.
  unfold backproject_voxel. destruct (on_detector _ _ _ _); [|done].
  rewrite Hp, Hw, !vec_get_zeros, fmul_0_0, fadd_0_0.
  apply insert_replicate.
Qed.

Lemma local_volume_zero_images (V : Z) (gdata : GlobalData F)
    (load : Z → ProjectionData F) (r G : Z) :
  (∀ id, ∃ a b, projection (load id) = replicate a fzero
                ∧ volume_weight (load id) = replicate b fzero) →
  local_volume num_projections detector_rows detector_columns V gdata load r G
  = replicate (Z.to_nat (recon_volume_size V)) fzero.
Proof.
  intros Hload. unfold local_volume, backproject_all.
  apply foldl_fixed. intros id _.
  destruct (Hload id) as (a & b & Hp & Hw). by apply (backproject_zero_image _ _ _ _ a b).
Qed.

Lemma final_volume_zero_images (V : Z) (gdata : GlobalData F)
    (load : Z → ProjectionData F) (G : Z) :
  (∀ id, ∃ a b, projection (load id) = replicate a fzero
                ∧ volume_weight (load id) = replicate b fzero) →
  final_volume num_projections detector_rows detector_columns V gdata load G
  = replicate (Z.to_nat (recon_volume_size V)) fzero.
Proof.
  intros Hload. unfold final_volume, MPI_Reduce_sum.
  destruct (seqZ 0 G) as [|r rs]; [done|]. simpl.
  rewrite local_volume_zero_images by done.
  apply foldl_fixed. intros buf Hbuf.
  apply list_elem_of_fmap in Hbuf as (r' & -> & _).
  rewrite local_volume_zero_images by done.
  by rewrite zip_with_replicate, fadd_0_0.
Qed.

End ZeroData.

Lemma checksum_zeros (n : nat) :
  checksum (replicate n Binary32.zero) = Binary64.zero.
Proof.
  unfold checksum. apply foldl_fixed. intros x Hx.
  apply elem_of_replicate in Hx as [-> _]. reflexivity.
Qed.

Section OutcomeClaims.

Variables num_projections detector_rows detector_columns : Z.

(** X15: when projections.bin and volumeweight.bin are missing, rank 0 still
    returns: it prints the checksum 0 and, if an output file is named and can
    be opened, writes 4 * V^3 zero bytes to it; nothing tells the run from
    one on blank images. *)
Theorem missing_images_give_zero_volume (num_voxels : Z)
    (input_dir output_filename : string) (mpi_size : Z)
    (clock : clock_readings) (fs : file_system) :
  0 <= num_voxels → num_voxels * num_voxels * num_voxels < 2 ^ 31 →
  contents fs !! (input_dir +:+ "/projections.bin") = None →
  contents fs !! ((input_dir +:+ "/" +:+ pretty num_voxels) +:+ "/volumeweight.bin")
  = None →
  output_filename = "" ∨ output_filename ∉ unwritable fs →
  ∃ fs',
    reconstruction num_projections detector_rows detector_columns num_voxels
      input_dir output_filename 0 mpi_size clock fs
    = Returned (fs', [("checksum: ", Binary64.zero);
                      ("elapsed time: ", elapsed_time clock);
                      ("reading time: ", reading_time clock);
                      ("writing time: ", writing_time clock);
                      ("computation time: ", omp_time clock)])
    ∧ (output_filename = "" → fs' = fs)
    ∧ (output_filename ≠ "" →
       contents fs' !! output_filename
       = Some (replicate (Z.to_nat (4 * (num_voxels * num_voxels * num_voxels)))
                 Byte.x00)).
Proof.
  intros HV Hcube Himg Hw Hout.
  unfold reconstruction. simpl.
  rewrite (final_volume_zero_images (F:=Binary32.float)); try reflexivity.
  2: { intros id. eexists _, _. unfold load_projection_data. simpl.
       split; by apply read_file_missing. }
  rewrite checksum_zeros, recon_volume_size_small by done.
  destruct (String.eqb_spec output_filename "") as [->|Hne]; simpl.
  - by eexists.
  - destruct Hout as [?|Hwr]; [done|].
    rewrite write_file_at_0 by done.
    eexists. split_and!; [done|done|].
    intros _. simpl. rewrite lookup_insert_eq, encode_floats_zeros.
    do 2 f_equal. lia.
Qed.


End OutcomeClaims.

(** ** Reading the output back *)

Lemma is_float_of_SF (x : spec_float) : Binary32.is_float (Binary32.of_SF x).
Proof.
  unfold Binary32.is_float, Binary32.of_SF, Binary32.sign_word, Binary32.quiet_nan.
  change (2 ^ 32) with 4294967296. change (2 ^ 31) with 2147483648.
  change (2 ^ 23) with 8388608.
  destruct x as [[]|[]| |[] m e]; try lia.
  - destruct (Z.ltb_spec (Z.pos m) 8388608).
    + lia.
    + pose proof (Z.mod_pos_bound (e + 150) 256 ltac:(lia)).
      pose proof (Z.mod_pos_bound (Z.pos m) 8388608 ltac:(lia)). lia.
  - destruct (Z.ltb_spec (Z.pos m) 8388608).
    + lia.
    + pose proof (Z.mod_pos_bound (e + 150) 256 ltac:(lia)).
      pose proof (Z.mod_pos_bound (Z.pos m) 8388608 ltac:(lia)). lia.
Qed.

Lemma is_float_add (a b : Binary32.float) : Binary32.is_float (fadd a b).
Proof. apply is_float_of_SF. Qed.

Section FloatVolumes.

Variables num_projections detector_rows detector_columns : Z.

Lemma backproject_is_float (V : Z) (gdata : GlobalData Binary32.float)
    (pdata : ProjectionData Binary32.float) (vol : list Binary32.float) :
  Forall Binary32.is_float vol →
  Forall Binary32.is_float
    (backproject detector_rows detector_columns V gdata pdata vol).
Proof.
  intros Hvol. unfold backproject.
  apply (foldl_preserves (Forall Binary32.is_float)); [done|].
  intros vol1 z Hvol1.
  apply (foldl_preserves (Forall Binary32.is_float)); [done|].
  intros vol2 i Hvol2. unfold backproject_voxel.
  destruct (on_detector _ _ _ _); [|done].
  apply Forall_insert; [done|]. apply is_float_add.
Qed.

Lemma local_volume_is_float (V : Z) (gdata : GlobalData Binary32.float)
    (load : Z → ProjectionData Binary32.float) (r G : Z) :
  Forall Binary32.is_float
    (local_volume num_projections detector_rows detector_columns V gdata load r G).
Proof.
  unfold local_volume, backproject_all.
  apply (foldl_preserves (Forall Binary32.is_float)).
  - apply Forall_replicate, is_float_zero.
  - intros vol id Hvol. by apply backproject_is_float.
Qed.

Lemma final_volume_is_float (V : Z) (gdata : GlobalData Binary32.float)
    (load : Z → ProjectionData Binary32.float) (G : Z) :
  Forall Binary32.is_float
    (final_volume num_projections detector_rows detector_columns V gdata load G).
Proof.
  unfold final_volume, MPI_Reduce_sum.
  destruct (seqZ 0 G) as [|r rs]; simpl.
  - apply Forall_replicate, is_float_zero.
  - apply (foldl_preserves (Forall Binary32.is_float)).
    + apply local_volume_is_float.
    + intros a b _. apply Forall_lookup. intros k x Hx.
      apply lookup_zip_with_Some in Hx as (u & v & -> & _ & _).
      apply is_float_add.
Qed.

(** X17: the output file of a run holds the final volume: reading V^3 floats
    from it with [read_file] gives back [recon_volume_final]. *)
Theorem output_file_reads_back (num_voxels : Z)
    (input_dir output_filename : string) (mpi_size : Z)
    (clock : clock_readings) (fs : file_system) :
  0 <= num_voxels → num_voxels * num_voxels * num_voxels < 2 ^ 31 →
  output_filename ≠ "" → output_filename ∉ unwritable fs →
  ∃ fs' report,
    reconstruction num_projections detector_rows detector_columns num_voxels
      input_dir output_filename 0 mpi_size clock fs = Returned (fs', report)
    ∧ read_file (num_voxels * num_voxels * num_voxels) 0 output_filename fs'
      = final_volume num_projections detector_rows detector_columns num_voxels
          (load_global_data num_voxels input_dir fs)
          (load_projection_data detector_rows detector_columns num_voxels
             input_dir fs)
          mpi_size.
Proof.
  intros HV Hcube Hne Hw.
  pose proof (cube_bounds num_voxels HV Hcube) as [_ Hc].
  unfold reconstruction. simpl.
  destruct (String.eqb_spec output_filename "") as [|_]; [done|]. simpl.
  rewrite write_file_at_0 by done.
  eexists _, _. split; [done|].
  erewrite read_file_padded;
    [|simpl; apply lookup_insert_eq|apply final_volume_is_float|lia..].
  change (Z.to_nat 0) with 0%nat. rewrite drop_0.
  apply take_app_length'. by rewrite final_volume_length.
Qed.

End FloatVolumes.

(** ** The largest volume *)

(** X18: the volume has V^3 elements exactly when V <= 1290; from 1291 on
    the product formed in [int] is no longer V^3. *)
Theorem recon_volume_size_exact_iff (num_voxels : Z) :
  0 <= num_voxels < 2 ^ 31 →
  recon_volume_size num_voxels = num_voxels * num_voxels * num_voxels
  ↔ num_voxels <= 1290.
Proof.
  intros HV. split.
  - intros Heq.
    destruct (Z_le_gt_dec num_voxels 1290) as [|Hbig]; [done|exfalso].
    assert (1291 * 1291 <= num_voxels * num_voxels) by nia.
    assert (1291 * 1291 * 1291 <= num_voxels * num_voxels * num_voxels) by nia.
    unfold recon_volume_size, wrap_uint64 in Heq.
    set (w := wrap_int32 (wrap_int32 (num_voxels * num_voxels) * num_voxels)) in *.
    assert (- 2 ^ 31 <= w < 2 ^ 31) as Hw.
    { subst w. unfold wrap_int32.
      pose proof (Z.mod_pos_bound
                    (wrap_int32 (num_voxels * num_voxels) * num_voxels + 2 ^ 31)
                    (2 ^ 32) ltac:(lia)). fold (wrap_int32 (num_voxels * num_voxels)) in *.
      lia. }
    destruct (Z_lt_le_dec w 0) as [Hneg|Hpos].
    + assert (w mod 2 ^ 64 = w + 2 ^ 64) as Hmod.
      { symmetry. apply Z.mod_unique with (q := -1); lia. }
      rewrite Hmod in Heq.
      destruct (Z_le_gt_dec num_voxels 2642245).
      * assert (num_voxels * num_voxels <= 2642245 * 2642245) by nia.
        assert (num_voxels * num_voxels * num_voxels <= 2642245 * 2642245 * 2642245)
          by nia.
        lia.
      * assert (2642246 * 2642246 <= num_voxels * num_voxels) by nia.
        assert (2642246 * 2642246 * 2642246 <= num_voxels * num_voxels * num_voxels)
          by nia.
        lia.
    + rewrite Z.mod_small in Heq by lia. lia.
  - intros Hle. apply recon_volume_size_small; [lia|].
    assert (num_voxels * num_voxels <= 1290 * 1290) by nia.
    assert (num_voxels * num_voxels * num_voxels <= 1290 * 1290 * 1290) by nia.
    lia.
Qed.

(** ** The count of the read, and the projections a rank depends on *)

(** X19: the count handed to [MPI_File_read_all] is an [int]: a size between
    2^31 and 2^32 - 1 becomes negative there, nothing is read, and the
    result is all zeros even if the file holds the data. *)
Theorem read_file_count_is_an_int (size offset : Z) (filename : string)
    (fs : file_system) :
  2 ^ 31 <= size < 2 ^ 32 →
  read_file size offset filename fs = replicate (Z.to_nat size) Binary32.zero.
Proof.
  intros Hsize. unfold read_file, MPI_File_read_all.
  destruct (fh_bytes _); [|done].
  assert (wrap_int32 size = size - 2 ^ 32) as ->.
  { unfold wrap_int32.
    assert ((size + 2 ^ 31) mod 2 ^ 32 = size - 2 ^ 31) as ->; [|lia].
    symmetry. apply Z.mod_unique with (q := 1); lia. }
  by destruct (Z.ltb_spec (size - 2 ^ 32) 0) as [_|?]; [|lia].
Qed.

Section Locality.

Context {F D : Type} `{!Arithmetic F D}.
Variables num_projections detector_rows detector_columns : Z.

(** X20: the volume of a rank depends on the data of its own projections
    only: two loaders that agree on the ids assigned to the rank give the
    same volume. *)
Theorem local_volume_uses_own_projections (V : Z) (gdata : GlobalData F)
    (load load' : Z → ProjectionData F) (mpi_rank mpi_size : Z) :
  (∀ projection_id,
     projection_id ∈ assigned_projections num_projections mpi_rank mpi_size →
     load projection_id = load' projection_id) →
  local_volume num_projections detector_rows detector_columns V gdata load
    mpi_rank mpi_size
  = local_volume num_projections detector_rows detector_columns V gdata load'
      mpi_rank mpi_size.
Proof.
  intros Hsame. unfold local_volume, backproject_all.
  apply foldl_agree. intros vol id Hid. by rewrite Hsame.
Qed.

End Locality.

(** ** Memory safety of the kernel, and the single process *)

(** X21: with the vectors that the two loaders return and a volume of V^3
    elements, every subscript of the kernel is inside its vector: the z
    coordinate, the four combined coordinates, the transform entries, the
    weight, the pixel of a voxel that passes the detector test, and the
    voxel that is written. *)
Theorem kernel_stays_inside_loaded_vectors (detector_rows detector_columns V : Z)
    (input_dir : string) (fs : file_system) (projection_id z i : Z) :
  0 <= V → V * V * V < 2 ^ 31 →
  0 <= detector_rows * detector_columns < 2 ^ 31 →
  0 <= z < V → 0 <= i < slice_size V →
  let gdata := load_global_data V input_dir fs in
  let pdata := load_projection_data detector_rows detector_columns V input_dir fs
                 projection_id in
  (Z.to_nat (wrap_uint64 z) < length (z_voxel_coords gdata))%nat
  ∧ (∀ j, 0 <= j < 4 →
       (Z.to_nat (wrap_uint64 (j * slice_size V + i))
        < length (combined_matrix gdata))%nat)
  ∧ (∀ j, 0 <= j < 4 →
       (Z.to_nat (wrap_uint64 (j + 4 + 4)) < length (transform_matrix pdata))%nat)
  ∧ (Z.to_nat (wrap_uint64 i) < length (volume_weight pdata))%nat
  ∧ (∀ col row,
       on_detector detector_rows detector_columns col row = true →
       (Z.to_nat (wrap_uint64 (pixel_index detector_columns col row))
        < length (projection pdata))%nat)
  ∧ (Z.to_nat (wrap_uint64 (z * slice_size V + i))
     < Z.to_nat (recon_volume_size V))%nat.
Proof.
  intros HV Hcube Hdet Hz Hi gdata pdata.
  rewrite slice_size_small in * by assumption.
  rewrite recon_volume_size_small by assumption.
  destruct (cube_bounds V HV Hcube) as [Hsq _].
  pose proof (voxel_index_range V HV z i Hz Hi) as Hk.
  assert (V <= V * V) as Hle by nia.
  assert (4 * V * V < 2 ^ 31) as H4.
  { destruct (Z_lt_le_dec V 4) as [Hs|Hb]; [|nia].
    assert (V * V <= 3 * 3) by nia. lia. }
  assert (0 <= 4 * V <= 4 * V * V) as H4V by nia.
  subst gdata pdata. cbn [load_global_data load_projection_data z_voxel_coords
    combined_matrix transform_matrix volume_weight projection].
  split_and!.
  - rewrite read_file_length; rewrite !wrap_uint64_id by lia; lia.
  - intros j Hj.
    assert (0 <= j * (V * V) <= 3 * (V * V)) by nia.
    rewrite (wrap_int32_id (4 * V)), (wrap_int32_id (4 * V * V)),
      (wrap_uint64_id (4 * V * V)) by lia.
    rewrite read_file_length, wrap_uint64_id by lia. lia.
  - intros j Hj. rewrite read_file_length by lia.
    rewrite wrap_uint64_id by lia. lia.
  - rewrite read_file_length;
      rewrite wrap_int32_id, ?wrap_uint64_id by lia;
      rewrite ?wrap_uint64_id by lia; lia.
  - intros col row Hon.
    destruct (pixel_index_on_detector _ _ _ _ (proj2 Hdet) Hon) as [-> Hpix].
    rewrite read_file_length;
      rewrite wrap_int32_id, ?wrap_uint64_id by lia;
      rewrite ?wrap_uint64_id by lia; lia.
  - rewrite wrap_uint64_id by lia. lia.
Qed.

(** X22: run by a single process, the program is the serial one: the final
    volume is the back-projection of all projections in the order of their
    ids, with no addition by the reduction. *)
Theorem single_process_is_serial `{Arithmetic F D}
    (num_projections detector_rows detector_columns V : Z)
    (gdata : GlobalData F) (load : Z → ProjectionData F) :
  0 <= num_projections < 2 ^ 31 →
  final_volume num_projections detector_rows detector_columns V gdata load 1
  = backproject_all detector_rows detector_columns V gdata load
      (seqZ 0 num_projections)
      (replicate (Z.to_nat (recon_volume_size V)) fzero).
Proof.
  intros HP. unfold final_volume, local_volume.
  change (seqZ 0 1) with [0]. cbn [fmap list_fmap MPI_Reduce_sum foldl].
  rewrite assigned_single by assumption. reflexivity.
Qed.

(** ** The further theorems at concrete inputs *)

Lemma read_file_slice_padded_witness :
  (contents scenario_fs !! "in/transform.bin"
   = Some (encode_floats (Binary32.of_Z <$> [0; 0; 0; 0; 0; 0; 0; 0; 0; 0; 0; 1]))
   ∧ Forall Binary32.is_float
       (Binary32.of_Z <$> [0; 0; 0; 0; 0; 0; 0; 0; 0; 0; 0; 1])
   ∧ 0 <= 10 ∧ 10 * 4 < 2 ^ 63 ∧ 0 <= 4 < 2 ^ 31)
  ∧ read_file 4 10 "in/transform.bin" scenario_fs
    = [Binary32.zero; Binary32.of_Z 1; Binary32.zero; Binary32.zero].
Proof.
  assert (Forall Binary32.is_float
            (Binary32.of_Z <$> [0; 0; 0; 0; 0; 0; 0; 0; 0; 0; 0; 1])) as Hfl.
  { repeat constructor; evaluate. }
  split; [split_and!; first [exact Hfl | evaluate]|].
  etrans; [apply (read_file_slice_padded
                    (Binary32.of_Z <$> [0; 0; 0; 0; 0; 0; 0; 0; 0; 0; 0; 1]));
           first [exact Hfl | evaluate]|evaluate].
Defined.



Lemma write_file_leaves_other_files_witness :
  ∃ fs',
    write_file [Binary32.of_Z 5] 0 "out.bin" scenario_fs = Returned fs'
    ∧ unwritable fs' = unwritable scenario_fs
    ∧ contents fs' !! "in/transform.bin" = contents scenario_fs !! "in/transform.bin".
Proof.
  eexists. split; [reflexivity|].
  destruct (write_file_leaves_other_files [Binary32.of_Z 5] 0 "out.bin"
              scenario_fs _ eq_refl) as [Hu Hc].
  split; [exact Hu|]. apply Hc. discriminate.
Defined.

Lemma write_file_discards_earlier_write_witness :
  ∃ fs1,
    write_file [Binary32.of_Z 5; Binary32.of_Z 1] 3 "out.bin" scenario_fs
    = Returned fs1
    ∧ write_file [Binary32.of_Z (-3)] 0 "out.bin" fs1
      = write_file [Binary32.of_Z (-3)] 0 "out.bin" scenario_fs.
Proof.
  eexists. split; [reflexivity|].
  apply (write_file_discards_earlier_write
           [Binary32.of_Z 5; Binary32.of_Z 1] [Binary32.of_Z (-3)] 3 0 "out.bin"
           scenario_fs).
  reflexivity.
Defined.

Lemma write_file_then_read_from_start_witness :
  (Forall Binary32.is_float [Binary32.of_Z 5; Binary32.of_Z (-3)]
   ∧ 0 <= 2 ∧ 2 + Z.of_nat (length [Binary32.of_Z 5; Binary32.of_Z (-3)]) < 2 ^ 31)
  ∧ ∃ fs',
      write_file [Binary32.of_Z 5; Binary32.of_Z (-3)] 2 "out.bin" scenario_fs
      = Returned fs'
      ∧ read_file (2 + Z.of_nat (length [Binary32.of_Z 5; Binary32.of_Z (-3)]))
          0 "out.bin" fs'
        = replicate (Z.to_nat 2) Binary32.zero
          ++ [Binary32.of_Z 5; Binary32.of_Z (-3)].
Proof.
  assert (Forall Binary32.is_float [Binary32.of_Z 5; Binary32.of_Z (-3)]) as Hfl.
  { repeat constructor; evaluate. }
  split; [split_and!; first [exact Hfl | evaluate]|].
  eexists. split; [reflexivity|].
  apply (write_file_then_read_from_start
           [Binary32.of_Z 5; Binary32.of_Z (-3)] 2 "out.bin" scenario_fs);
    first [exact Hfl | reflexivity | evaluate].
Defined.

Lemma load_global_data_shape_witness :
  (0 <= 2 ∧ 4 * 2 * 2 < 2 ^ 31)
  ∧ length (combined_matrix (load_global_data 2 "in" scenario_fs))
    = Z.to_nat (4 * 2 * 2)
  ∧ length (z_voxel_coords (load_global_data 2 "in" scenario_fs)) = Z.to_nat 2.
Proof. split; [lia|]. apply load_global_data_shape; lia. Defined.

Lemma load_projection_data_shape_witness :
  (0 <= Source.detector_rows * Source.detector_columns < 2 ^ 31
   ∧ 0 <= 2 ∧ 2 * 2 < 2 ^ 31)
  ∧ length (projection (load_projection_data Source.detector_rows
                          Source.detector_columns 2 "in" scenario_fs 319))
    = Z.to_nat (Source.detector_rows * Source.detector_columns).
Proof.
  split; [evaluate|].
  destruct (load_projection_data_shape Source.detector_rows
              Source.detector_columns 2 "in" scenario_fs 319) as [Hp _];
    [evaluate..|].
  exact Hp.
Defined.

Lemma load_projection_data_regions_witness :
  (contents two_halves_fs !! ("in" +:+ "/transform.bin")
   = Some (encode_floats
             (Binary32.of_Z <$> [0; 0; 10; 0; 0; 0; 0; 0; 0; 0; 0; 1;
                                 0; 0; -10; 10; 0; 0; 0; 0; 0; 0; 0; 1])))
  ∧ transform_matrix (load_projection_data 2 2 2 "in" two_halves_fs 1)
    = take (Z.to_nat 12)
        (drop (Z.to_nat (1 * 12))
           (Binary32.of_Z <$> [0; 0; 10; 0; 0; 0; 0; 0; 0; 0; 0; 1;
                               0; 0; -10; 10; 0; 0; 0; 0; 0; 0; 0; 1])
         ++ replicate (Z.to_nat 12) Binary32.zero).
Proof.
  split; [evaluate|].
  assert (Forall Binary32.is_float
            (Binary32.of_Z <$> [1; 1; 1; 1; 1; 1; 1; 1])) as Fones.
  { repeat constructor; evaluate. }
  assert (Forall Binary32.is_float
            (Binary32.of_Z <$> [0; 0; 10; 0; 0; 0; 0; 0; 0; 0; 0; 1;
                                0; 0; -10; 10; 0; 0; 0; 0; 0; 0; 0; 1])) as Ftr.
  { repeat constructor; evaluate. }
  refine (proj1 (proj2 (load_projection_data_regions 2 2 2 "in" two_halves_fs 1
                          (Binary32.of_Z <$> [1; 1; 1; 1; 1; 1; 1; 1])
                          (Binary32.of_Z <$> [0; 0; 10; 0; 0; 0; 0; 0; 0; 0; 0; 1;
                                              0; 0; -10; 10; 0; 0; 0; 0; 0; 0; 0; 1])
                          (Binary32.of_Z <$> [1; 1; 1; 1; 1; 1; 1; 1])
                          _ _ _ _ _ _ _ Fones Ftr Fones _ _ _))); evaluate.
Defined.

Lemma load_global_data_content_witness :
  (0 <= 2 ∧ 4 * 2 * 2 < 2 ^ 31)
  ∧ load_global_data 2 "in" scenario_fs
    = {| combined_matrix := Binary32.of_Z <$> [0; 1; 0; 1; 0; 0; 1; 1;
                                               0; 0; 0; 0; 1; 1; 1; 1];
         z_voxel_coords := Binary32.of_Z <$> [0; 1] |}.
Proof.
  split; [lia|].
  apply load_global_data_content;
    [lia|lia|repeat constructor; evaluate|repeat constructor; evaluate
    |evaluate..].
Defined.

Lemma backproject_any_voxel_order_witness :
  (0 <= 2 ∧ 2 * 2 * 2 < 2 ^ 31 ∧ reverse (voxels 2) ≡ₚ voxels 2)
  ∧ foldl (λ vol zi,
             backproject_voxel 2 2 (slice_size 2)
               (load_global_data 2 "in" scenario_fs)
               (load_projection_data 2 2 2 "in" scenario_fs 0) vol zi.1 zi.2)
      (replicate 8 Binary32.zero) (reverse (voxels 2))
    = backproject 2 2 2 (load_global_data 2 "in" scenario_fs)
        (load_projection_data 2 2 2 "in" scenario_fs 0)
        (replicate 8 Binary32.zero).
Proof.
  split; [split_and!; [lia|lia|apply reverse_Permutation]|].
  apply (@backproject_any_voxel_order _ _ binary32_arithmetic);
    [lia|lia|apply reverse_Permutation].
Defined.

Lemma unmapped_voxel_stays_zero_witness :
  (∀ projection_id,
     projection_id ∈ assigned_projections 2 0 2 →
     on_detector 2 2
       (map_col (2 * 2) (load_global_data 2 "in" two_halves_fs)
          (load_projection_data 2 2 2 "in" two_halves_fs projection_id) 1 0)
       (map_row (2 * 2) (load_global_data 2 "in" two_halves_fs)
          (load_projection_data 2 2 2 "in" two_halves_fs projection_id) 1 0)
     = false)
  ∧ local_volume 2 2 2 2 (load_global_data 2 "in" two_halves_fs)
      (load_projection_data 2 2 2 "in" two_halves_fs) 0 2
      !! Z.to_nat (1 * (2 * 2) + 0)
    = Some Binary32.zero.
Proof.
  assert (∀ projection_id,
            projection_id ∈ assigned_projections 2 0 2 →
            on_detector 2 2
              (map_col (2 * 2) (load_global_data 2 "in" two_halves_fs)
                 (load_projection_data 2 2 2 "in" two_halves_fs projection_id) 1 0)
              (map_row (2 * 2) (load_global_data 2 "in" two_halves_fs)
                 (load_projection_data 2 2 2 "in" two_halves_fs projection_id) 1 0)
            = false) as Hoff.
  { intros projection_id Hin.
    assert (assigned_projections 2 0 2 = [0]) as Hown by evaluate.
    rewrite Hown in Hin. apply list_elem_of_singleton in Hin. subst projection_id.
    evaluate. }
  split; [exact Hoff|].
  apply (@unmapped_voxel_stays_zero _ _ binary32_arithmetic 2 2 2 2
           (load_global_data 2 "in" two_halves_fs)
           (load_projection_data 2 2 2 "in" two_halves_fs) 0 2 1 0);
    [lia|lia|lia|lia|exact Hoff].
Defined.

Lemma more_ranks_than_projections_witness :
  (0 <= Source.num_projections < 2 ^ 31 ∧ Source.num_projections < 512)
  ∧ assigned_projections Source.num_projections 7 512 = []
  ∧ assigned_projections Source.num_projections (512 - 1) 512
    = seqZ 0 Source.num_projections.
Proof.
  split; [evaluate|].
  destruct (more_ranks_than_projections Source.num_projections 512)
    as [Hidle Hlast]; [evaluate..|].
  split; [apply Hidle; lia|exact Hlast].
Defined.

Lemma assigned_projections_are_valid_ids_witness :
  (0 <= Source.num_projections < 2 ^ 31 ∧ 0 < 160 ∧ 0 <= 159 < 160
   ∧ 319 ∈ assigned_projections Source.num_projections 159 160)
  ∧ 0 <= 319 < Source.num_projections.
Proof.
  assert (319 ∈ assigned_projections Source.num_projections 159 160) as Hin.
  { assert (assigned_projections Source.num_projections 159 160 = [318; 319])
      as -> by evaluate.
    apply elem_of_cons. right. apply elem_of_cons. left. reflexivity. }
  split; [split_and!; first [exact Hin | evaluate]|].
  apply (assigned_projections_are_valid_ids Source.num_projections 160 159 319);
    first [exact Hin | evaluate].
Defined.

Lemma missing_images_give_zero_volume_witness :
  (0 <= 2 ∧ 2 * 2 * 2 < 2 ^ 31
   ∧ contents {| contents := ∅; unwritable := ∅ |} !! ("in" +:+ "/projections.bin")
     = None)
  ∧ ∃ fs',
      reconstruction Source.num_projections Source.detector_rows
        Source.detector_columns 2 "in" "out.bin" 0 4 scenario_clock
        {| contents := ∅; unwritable := ∅ |}
      = Returned
          (fs',
           [("checksum: ", Binary64.zero);
            ("elapsed time: ", elapsed_time scenario_clock);
            ("reading time: ", reading_time scenario_clock);
            ("writing time: ", writing_time scenario_clock);
            ("computation time: ", omp_time scenario_clock)])
      ∧ contents fs' !! "out.bin"
        = Some (replicate (Z.to_nat (4 * (2 * 2 * 2))) Byte.x00).
Proof.
  split; [split_and!; [lia|lia|apply lookup_empty]|].
  destruct (missing_images_give_zero_volume Source.num_projections
              Source.detector_rows Source.detector_columns 2 "in" "out.bin" 4
              scenario_clock {| contents := ∅; unwritable := ∅ |})
    as (fs' & Hrun & _ & Hfile);
    [lia|lia|apply lookup_empty|apply lookup_empty
    |right; apply not_elem_of_empty|].
  exists fs'. split; [exact Hrun|]. apply Hfile. discriminate.
Defined.


Lemma output_file_reads_back_witness :
  (0 <= 2 ∧ 2 * 2 * 2 < 2 ^ 31 ∧ "out.bin" ≠ ""
   ∧ "out.bin" ∉ unwritable scenario_fs)
  ∧ ∃ fs' report,
      reconstruction 1 2 2 2 "in" "out.bin" 0 1 scenario_clock scenario_fs
      = Returned (fs', report)
      ∧ read_file (2 * 2 * 2) 0 "out.bin" fs' = replicate 8 (Binary32.of_Z 5).
Proof.
  split; [split_and!; [lia|lia|discriminate|apply not_elem_of_empty]|].
  destruct (output_file_reads_back 1 2 2 2 "in" "out.bin" 1 scenario_clock
              scenario_fs)
    as (fs' & report & Hrun & Hread);
    [lia|lia|discriminate|apply not_elem_of_empty|].
  exists fs', report. split; [exact Hrun|].
  etrans; [exact Hread|]. clear Hrun Hread. evaluate.
Defined.

Lemma recon_volume_size_exact_iff_witness :
  0 <= 1290 < 2 ^ 31
  ∧ (recon_volume_size 1290 = 1290 * 1290 * 1290 ↔ 1290 <= 1290).
Proof. split; [lia|]. apply recon_volume_size_exact_iff. lia. Defined.

Lemma read_file_count_is_an_int_witness :
  2 ^ 31 <= 2 ^ 31 < 2 ^ 32
  ∧ read_file (2 ^ 31) 0 "in/transform.bin" scenario_fs
    = replicate (Z.to_nat (2 ^ 31)) Binary32.zero.
Proof. split; [lia|]. apply read_file_count_is_an_int. lia. Defined.

Lemma local_volume_uses_own_projections_witness :
  (∀ projection_id,
     projection_id ∈ assigned_projections 2 0 2 →
     load_projection_data 2 2 2 "in" two_halves_fs projection_id
     = load_projection_data 2 2 2 "in" two_halves_fs 0)
  ∧ local_volume 2 2 2 2 (load_global_data 2 "in" two_halves_fs)
      (load_projection_data 2 2 2 "in" two_halves_fs) 0 2
    = local_volume 2 2 2 2 (load_global_data 2 "in" two_halves_fs)
        (λ _, load_projection_data 2 2 2 "in" two_halves_fs 0) 0 2.
Proof.
  assert (∀ projection_id,
            projection_id ∈ assigned_projections 2 0 2 →
            load_projection_data 2 2 2 "in" two_halves_fs projection_id
            = load_projection_data 2 2 2 "in" two_halves_fs 0) as Hsame.
  { intros projection_id Hin.
    assert (assigned_projections 2 0 2 = [0]) as Hown by evaluate.
    rewrite Hown in Hin. apply list_elem_of_singleton in Hin. subst projection_id.
    reflexivity. }
  split; [exact Hsame|].
  apply (@local_volume_uses_own_projections _ _ binary32_arithmetic 2 2 2 2
           (load_global_data 2 "in" two_halves_fs)
           (load_projection_data 2 2 2 "in" two_halves_fs)
           (λ _, load_projection_data 2 2 2 "in" two_halves_fs 0) 0 2).
  exact Hsame.
Defined.

Lemma kernel_stays_inside_loaded_vectors_witness :
  (0 <= 2 ∧ 2 * 2 * 2 < 2 ^ 31
   ∧ 0 <= Source.detector_rows * Source.detector_columns < 2 ^ 31
   ∧ 0 <= 1 < 2 ∧ 0 <= 3 < slice_size 2)
  ∧ (Z.to_nat (wrap_uint64 (3 * slice_size 2 + 3))
     < length (combined_matrix (load_global_data 2 "in" scenario_fs)))%nat
  ∧ (Z.to_nat (wrap_uint64
                 (pixel_index Source.detector_columns 255 191))
     < length (projection
                 (load_projection_data Source.detector_rows
                    Source.detector_columns 2 "in" scenario_fs 319)))%nat.
Proof.
  split; [evaluate|].
  destruct (kernel_stays_inside_loaded_vectors Source.detector_rows
              Source.detector_columns 2 "in" scenario_fs 319 1 3)
    as (_ & Hcombined & _ & _ & Hpixel & _); [evaluate..|].
  split; [apply Hcombined; lia|apply Hpixel; reflexivity].
Defined.

Lemma single_process_is_serial_witness :
  0 <= 1 < 2 ^ 31
  ∧ final_volume 1 2 2 2 (load_global_data 2 "in" scenario_fs)
      (load_projection_data 2 2 2 "in" scenario_fs) 1
    = backproject_all 2 2 2 (load_global_data 2 "in" scenario_fs)
        (load_projection_data 2 2 2 "in" scenario_fs) (seqZ 0 1)
        (replicate (Z.to_nat (recon_volume_size 2)) Binary32.zero).
Proof.
  split; [lia|].
  apply (@single_process_is_serial _ _ binary32_arithmetic 1 2 2 2
           (load_global_data 2 "in" scenario_fs)
           (load_projection_data 2 2 2 "in" scenario_fs)).
  lia.
Defined.
